(** * Embedded Kafka harness: a model of [src/kafka-embedded.js]

    The harness is a Node.js module.  Every method of [KafkaManager] returns a
    promise whose executor calls host APIs (portfinder, tmp, properties-parser,
    child_process, timers) and settles from inside their callbacks.  The model
    keeps that shape: a method is a [Task], a tree whose nodes are the host
    calls the method makes and whose branches are the callbacks it passes.
    A small event-loop machine runs tasks against the choices of the
    environment (which callback fires next, with which arguments). *)

From Stdlib Require Import ZArith NArith String Ascii List Lia.
From stdpp Require Import base decidable option list gmap strings pretty.

Local Open Scope string_scope.
Local Open Scope list_scope.

(** ** JavaScript data *)

(** An [Error] object as the harness sees it: it is only passed along and
    logged.  [err_code] is the exit status carried by the errors of [exec]. *)
Record JsError := MkError { err_message : string; err_code : option Z }.

#[global] Instance JsError_eq_dec : EqDecision JsError.
Proof. solve_decision. Defined.

(** The values handed to [console.log] and interpolated in template literals. *)
Inductive JsVal :=
| JUndefined
| JNull
| JStr (s : string)
| JNum (n : Z)
| JErr (e : JsError).

#[global] Instance JsVal_eq_dec : EqDecision JsVal.
Proof. solve_decision. Defined.

(** String conversion of a template literal [`${v}`]. *)
Definition js_to_string (v : JsVal) : string :=
  match v with
  | JUndefined => "undefined"
  | JNull => "null"
  | JStr s => s
  | JNum n => pretty n
  | JErr e => "Error: " +:+ err_message e
  end.

(** A port read out of the array of portfinder: [ports[i]] is [undefined]
    past the end of the array. *)
Definition js_of_port (p : option N) : JsVal :=
  match p with
  | Some n => JNum (Z.of_N n)
  | None => JUndefined
  end.

(** The code of an ['exit'] event: a number, or [null] when the child was
    ended by a signal. *)
Definition js_of_code (c : option Z) : JsVal :=
  match c with
  | Some n => JNum n
  | None => JNull
  end.

(** The key map of a properties-parser editor. *)
Abbreviation Props := (gmap string string).

(** The environment of a process. *)
Abbreviation Env := (gmap string string).

(** Options of [child_process.spawn]. *)
Record SpawnOpts := MkSpawnOpts { spawn_env : Env; spawn_cwd : string }.

#[global] Instance SpawnOpts_eq_dec : EqDecision SpawnOpts.
Proof. solve_decision. Defined.

(** Handles: a child process and a [KafkaManager] object are named by their
    index in the tables of the machine. *)
Definition Proc := nat.
Definition Ref := nat.

Inductive Stream := Stdout | Stderr.

#[global] Instance Stream_eq_dec : EqDecision Stream.
Proof. solve_decision. Defined.

(** Synchronous host calls that return nothing the harness reads. *)
Inductive HostCall :=
| TmpSetGracefulCleanup
| PortfinderSetBasePort (port : N)
| ConsoleOverride
| ConsoleLog (msg : string) (args : JsVal)
| Kill (proc : Proc) (signal : string).

#[global] Instance HostCall_eq_dec : EqDecision HostCall.
Proof. solve_decision. Defined.

(** The fields of a [KafkaManager]: the pending bytes of its [StringDecoder]
    and its [takenPorts] array. *)
Record KafkaManager := MkManager { decoder : string; takenPorts : list N }.

(** ** Tasks *)

(** [Done] and [Fail] are the [resolve] and [reject] of the promise being
    built; [Idle] is the end of a callback that settles nothing.  The
    asynchronous nodes carry the callback the source passes, with the
    arguments of the Node convention [(err, value)]. *)
Inductive Task (A : Type) : Type :=
| Done (a : A)
| Fail (e : JsError)
| Idle
(* the harness object *)
| NewManager (init : KafkaManager) (k : Ref -> Task A)
| DecoderWrite (this : Ref) (data : string) (k : string -> Task A)
| TakenPortsIncludes (this : Ref) (port : N) (k : bool -> Task A)
| TakenPortsPush (this : Ref) (port : N) (k : Task A)
(* synchronous host calls; [LogDebug] is a call of [this.logDebug] *)
| Host (c : HostCall) (k : Task A)
| LogDebug (msg : string) (args : JsVal) (k : Task A)
| Spawn (script : string) (args : list string) (opts : option SpawnOpts)
        (k : Proc -> Task A)
| OnData (p : Proc) (s : Stream) (listener : string -> Task A) (k : Task A)
| OnError (p : Proc) (listener : JsError -> Task A) (k : Task A)
| OnExit (p : Proc) (listener : option Z -> Task A) (k : Task A)
(* asynchronous host calls *)
| GetPort (cb : option JsError -> N -> Task A)
| GetPorts (count : nat) (cb : option JsError -> list N -> Task A)
| TmpDir (prefix : string) (unsafeCleanup : bool)
         (cb : option JsError -> string -> Task A)
| CreateEditor (file : string) (cb : option JsError -> Props -> Task A)
| Save (file : string) (props : Props) (cb : option JsError -> Task A)
| Exec (command : string)
       (cb : option JsError -> string -> string -> Task A)
| SetTimeout (ms : N) (cb : Task A).

Arguments Done {A} a.
Arguments Fail {A} e.
Arguments Idle {A}.
Arguments NewManager {A} init k.
Arguments DecoderWrite {A} this data k.
Arguments TakenPortsIncludes {A} this port k.
Arguments TakenPortsPush {A} this port k.
Arguments Host {A} c k.
Arguments LogDebug {A} msg args k.
Arguments Spawn {A} script args opts k.
Arguments OnData {A} p s listener k.
Arguments OnError {A} p listener k.
Arguments OnExit {A} p listener k.
Arguments GetPort {A} cb.
Arguments GetPorts {A} count cb.
Arguments TmpDir {A} prefix unsafeCleanup cb.
Arguments CreateEditor {A} file cb.
Arguments Save {A} file props cb.
Arguments Exec {A} command cb.
Arguments SetTimeout {A} ms cb.

(** [await t] followed by [f]: [f] replaces every [resolve] of [t]. *)
Fixpoint bind {A B} (t : Task A) (f : A -> Task B) : Task B :=
  match t with
  | Done a => f a
  | Fail e => Fail e
  | Idle => Idle
  | NewManager init k => NewManager init (fun r => bind (k r) f)
  | DecoderWrite this data k => DecoderWrite this data (fun s => bind (k s) f)
  | TakenPortsIncludes this port k =>
      TakenPortsIncludes this port (fun b => bind (k b) f)
  | TakenPortsPush this port k => TakenPortsPush this port (bind k f)
  | Host c k => Host c (bind k f)
  | LogDebug msg args k => LogDebug msg args (bind k f)
  | Spawn script args opts k => Spawn script args opts (fun p => bind (k p) f)
  | OnData p s l k => OnData p s (fun d => bind (l d) f) (bind k f)
  | OnError p l k => OnError p (fun e => bind (l e) f) (bind k f)
  | OnExit p l k => OnExit p (fun c => bind (l c) f) (bind k f)
  | GetPort cb => GetPort (fun err port => bind (cb err port) f)
  | GetPorts n cb => GetPorts n (fun err ports => bind (cb err ports) f)
  | TmpDir prefix u cb => TmpDir prefix u (fun err path => bind (cb err path) f)
  | CreateEditor file cb =>
      CreateEditor file (fun err props => bind (cb err props) f)
  | Save file props cb => Save file props (fun err => bind (cb err) f)
  | Exec command cb =>
      Exec command (fun err out errout => bind (cb err out errout) f)
  | SetTimeout ms cb => SetTimeout ms (bind cb f)
  end.

(** [try { t } catch (error) { h error }]: [h] replaces every [reject]. *)
Fixpoint catch {A} (t : Task A) (h : JsError -> Task A) : Task A :=
  match t with
  | Done a => Done a
  | Fail e => h e
  | Idle => Idle
  | NewManager init k => NewManager init (fun r => catch (k r) h)
  | DecoderWrite this data k => DecoderWrite this data (fun s => catch (k s) h)
  | TakenPortsIncludes this port k =>
      TakenPortsIncludes this port (fun b => catch (k b) h)
  | TakenPortsPush this port k => TakenPortsPush this port (catch k h)
  | Host c k => Host c (catch k h)
  | LogDebug msg args k => LogDebug msg args (catch k h)
  | Spawn script args opts k => Spawn script args opts (fun p => catch (k p) h)
  | OnData p s l k => OnData p s (fun d => catch (l d) h) (catch k h)
  | OnError p l k => OnError p (fun e => catch (l e) h) (catch k h)
  | OnExit p l k => OnExit p (fun c => catch (l c) h) (catch k h)
  | GetPort cb => GetPort (fun err port => catch (cb err port) h)
  | GetPorts n cb => GetPorts n (fun err ports => catch (cb err ports) h)
  | TmpDir prefix u cb => TmpDir prefix u (fun err path => catch (cb err path) h)
  | CreateEditor file cb =>
      CreateEditor file (fun err props => catch (cb err props) h)
  | Save file props cb => Save file props (fun err => catch (cb err) h)
  | Exec command cb =>
      Exec command (fun err out errout => catch (cb err out errout) h)
  | SetTimeout ms cb => SetTimeout ms (catch cb h)
  end.

#[global] Instance Task_ret : MRet Task := fun A a => Done a.
#[global] Instance Task_bind : MBind Task := fun A B f t => bind t f.

(** What the factory resolves to. *)
Record BrokerHandle := MkHandle { kafkaPort : option N; close : Task unit }.

Record PortPair := MkPorts { pp_kafkaPort : option N; pp_controllerPort : option N }.

(** ** Strings of the source *)

(** The double quote of the shell command line. *)
Definition dquote : string := String (ascii_of_nat 34) EmptyString.

(** [s.replace(/\\/g, '\\\\')]: every backslash is doubled. *)
Fixpoint escape_backslashes (s : string) : string :=
  match s with
  | EmptyString => EmptyString
  | String c rest =>
      if Ascii.eqb c "\"%char
      then String c (String c (escape_backslashes rest))
      else String c (escape_backslashes rest)
  end.

Definition is_space (c : ascii) : bool :=
  let n := nat_of_ascii c in
  (Nat.eqb n 32 || (Nat.leb 9 n && Nat.leb n 13))%bool.

Fixpoint trim_start (s : string) : string :=
  match s with
  | String c rest => if is_space c then trim_start rest else s
  | EmptyString => EmptyString
  end.

Fixpoint trim_end (s : string) : string :=
  match s with
  | EmptyString => EmptyString
  | String c rest =>
      match trim_end rest with
      | EmptyString => if is_space c then EmptyString else String c EmptyString
      | rest' => String c rest'
      end
  end.

(** [s.trim()] on the bytes of [s]. *)
Definition trim (s : string) : string := trim_end (trim_start s).

(** ** The module [kafka-embedded.js] *)

Section Kafka.

(** [process.platform === 'win32'], fixed when the module is loaded. *)
Variable IS_WINDOWS : bool.
(** [CONFIG.PATHS], computed from [__dirname] when the module is loaded. *)
Variable KAFKA_PROPERTIES : string.
Variable KAFKA_BIN : string.
(** [process.env], taken as fixed during a run. *)
Variable process_env : Env.
(** [StringDecoder.prototype.write]: from the bytes held back and a chunk
    to the decoded text and the bytes held back next. *)
Variable decoder_write : string -> string -> string * string.

Definition BASE_PORT : N := 18000.
Definition KAFKA_LOG_ENV : string := "KAFKA_PLEASE_LOG".
Definition WAIT_TIME : N := 10000.

Definition path_sep : string := if IS_WINDOWS then "\" else "/".

(** [path.join]: the segments joined by the separator of the platform.
    The harness joins segments that are already normalised. *)
Fixpoint path_join (parts : list string) : string :=
  match parts with
  | [] => "."
  | [p] => p
  | p :: rest => p +:+ path_sep +:+ path_join rest
  end.

(** *** class KafkaManager *)

Definition setupConsoleOverrides {A} (this : Ref) (k : Task A) : Task A :=
  Host ConsoleOverride k.

Definition KafkaManager_constructor {A} (k : Ref -> Task A) : Task A :=
  NewManager {| decoder := EmptyString; takenPorts := [] |} (fun this =>
  Host TmpSetGracefulCleanup (
  Host (PortfinderSetBasePort BASE_PORT) (
  setupConsoleOverrides this (k this)))).

Definition verbose : bool :=
  bool_decide (process_env !! KAFKA_LOG_ENV = Some "verbose").

Definition waitFor (this : Ref) (ms : N) : Task unit :=
  LogDebug ("Now waiting for " +:+ pretty ms +:+ " ms.") JUndefined (
  SetTimeout ms (Done tt)).

(** The recursion of [getPortRecursive] has no bound in the source; [fuel]
    bounds the probes of the model, and a probe past it stays pending. *)
Fixpoint getPortRecursive {A} (fuel : nat) (this : Ref)
    (callback : option JsError -> N -> Task A) : Task A :=
  match fuel with
  | O => Idle
  | S fuel' =>
      GetPort (fun err port =>
        match err with
        | Some e => callback (Some e) port
        | None =>
            TakenPortsIncludes this port (fun taken =>
              if taken then getPortRecursive fuel' this callback
              else callback None port)
        end)
  end.

Definition getAvailablePort (fuel : nat) (this : Ref) : Task N :=
  getPortRecursive fuel this (fun err port =>
    match err with
    | Some e => Fail e
    | None => LogDebug "available port" (JNum (Z.of_N port)) (Done port)
    end).

Definition allocatePorts (this : Ref) : Task PortPair :=
  GetPorts 2 (fun err ports =>
    match err with
    | Some e => Fail e
    | None => Done {| pp_kafkaPort := ports !! 0%nat;
                      pp_controllerPort := ports !! 1%nat |}
    end).

Definition createTempDirectory (this : Ref) (prefix : string) : Task string :=
  TmpDir prefix true (fun err path =>
    match err with
    | Some e => Fail e
    | None => Done path
    end).

Definition initializeStorage (this : Ref) (propertiesFile : string) : Task unit :=
  let scriptPath :=
    if IS_WINDOWS
    then path_join [KAFKA_BIN; "windows"; "kafka-storage.bat"]
    else path_join [KAFKA_BIN; "kafka-storage.sh"] in
  let command :=
    scriptPath +:+ " format -t " +:+ dquote +:+ "$(" +:+ scriptPath
      +:+ " random-uuid)" +:+ dquote +:+ " -c " +:+ propertiesFile
      +:+ " --standalone" in
  Exec command (fun error stdout stderr =>
    match error with
    | Some e => Fail e
    | None =>
        (if bool_decide (stderr = EmptyString) then (fun k => k)
         else LogDebug ("stderr: " +:+ stderr) JUndefined) (
        LogDebug ("UUID: " +:+ trim stdout) JUndefined (
        Done tt))
    end).

Definition template_port (p : option N) : string := js_to_string (js_of_port p).

Definition createKafkaConfig (this : Ref) (kafkaDir : string)
    (controllerPort kafkaPort : option N) : Task string :=
  LogDebug "Making kafka config file" (JStr kafkaDir) (
  CreateEditor KAFKA_PROPERTIES (fun err props =>
    match err with
    | Some e => Fail e
    | None =>
        let logDir := escape_backslashes kafkaDir in
        let props := <["log.dirs" := logDir]> props in
        let props := <["controller.quorum.bootstrap.servers" :=
                        "localhost:" +:+ template_port controllerPort]> props in
        let props := <["listeners" :=
                        "PLAINTEXT://localhost:" +:+ template_port kafkaPort
                        +:+ ",CONTROLLER://localhost:"
                        +:+ template_port controllerPort]> props in
        let props := <["advertised.listeners" :=
                        "PLAINTEXT://localhost:" +:+ template_port kafkaPort
                        +:+ ",CONTROLLER://localhost:"
                        +:+ template_port controllerPort]> props in
        let props := <["controller.listener.names" := "CONTROLLER"]> props in
        let finalName := path_join [kafkaDir; "server.properties"] in
        Save finalName props (fun _ => Done finalName)
    end)).

Definition killProcess (this : Ref) (proc : Proc) : Task unit :=
  OnExit proc (fun code =>
    LogDebug ("The process exited. Code " +:+ js_to_string (js_of_code code)
              +:+ ". Resolve promise.") JUndefined (
    Done tt)) (
  Host (Kill proc "SIGKILL")
  Idle).

Definition stopKafkaServer (this : Ref) : Task unit :=
  LogDebug "Stopping kafka..." JUndefined (
  let scriptPath :=
    if IS_WINDOWS
    then path_join [KAFKA_BIN; "windows"; "kafka-server-stop.bat"]
    else path_join [KAFKA_BIN; "kafka-server-stop.sh"] in
  Spawn scriptPath [] None (fun proc =>
  OnExit proc (fun _ => Done tt)
  Idle)).

Definition startKafkaProcess (this : Ref) (kafkaDir : string)
    (kafkaPort : option N) : Task BrokerHandle :=
  let scriptPath :=
    if IS_WINDOWS
    then path_join [KAFKA_BIN; "windows"; "kafka-server-start.bat"]
    else path_join [KAFKA_BIN; "kafka-server-start.sh"] in
  let propertiesFile := path_join [kafkaDir; "server.properties"] in
  LogDebug "starting kafka, config" (JStr propertiesFile) (
  Spawn scriptPath [propertiesFile]
    (Some {| spawn_env := <["JMX_PORT" := EmptyString]> process_env;
             spawn_cwd := kafkaDir |}) (fun kafkaProcess =>
  OnData kafkaProcess Stdout (fun data =>
    DecoderWrite this data (fun message =>
    LogDebug "Kafka output:" (JStr message) Idle)) (
  OnData kafkaProcess Stderr (fun data =>
    DecoderWrite this data (fun message =>
    LogDebug "Kafka error:" (JStr message) Idle)) (
  OnError kafkaProcess (fun error =>
    LogDebug "Failed to start Kafka process" (JErr error) Idle) (
  OnExit kafkaProcess (fun code =>
    LogDebug ("Child exited with code " +:+ js_to_string (js_of_code code))
             JUndefined Idle) (
  LogDebug "Now starting with the health check stuff..." JUndefined (
  SetTimeout WAIT_TIME (
    LogDebug "Kafka startup time elapsed" JUndefined (
    Done {| kafkaPort := kafkaPort;
            close := killProcess this kafkaProcess ;; stopKafkaServer this |}
  ))))))))).

Definition startKafkaServer (this : Ref) : Task BrokerHandle :=
  catch (
    ports ← allocatePorts this;
    kafkaDir ← createTempDirectory this "kafka-";
    propertiesFile ← createKafkaConfig this kafkaDir
                       (pp_controllerPort ports) (pp_kafkaPort ports);
    initializeStorage this propertiesFile ;;
    startKafkaProcess this kafkaDir (pp_kafkaPort ports))
  (fun error =>
    LogDebug "Error starting Kafka server:" (JErr error) (
    Fail error)).

(** [module.exports]: [new KafkaManager().startKafkaServer()]. *)
Definition makeKafkaServer : Task BrokerHandle :=
  KafkaManager_constructor (fun this => startKafkaServer this).


(** ** The event loop *)

(** What a promise of the machine settles with. *)
Inductive Value :=
| VUnit
| VHandle (h : BrokerHandle)
| VPort (n : N)
| VPorts (ports : PortPair)
| VString (s : string).

Inductive Outcome :=
| Resolved (v : Value)
| Rejected (e : JsError).

(** The asynchronous calls in flight and what the host answers them with. *)
Inductive AsyncCall :=
| CGetPort
| CGetPorts (count : nat)
| CTmpDir (prefix : string) (unsafeCleanup : bool)
| CCreateEditor (file : string)
| CSave (file : string) (props : Props)
| CExec (command : string)
| CSetTimeout (ms : N).

Inductive Resp :=
| RPort (err : option JsError) (port : N)
| RPorts (err : option JsError) (ports : list N)
| RDir (err : option JsError) (path : string)
| REditor (err : option JsError) (props : Props)
| RSaved (err : option JsError)
| RExec (err : option JsError) (stdout stderr : string)
| RTimeout.

(** What a child process emits. *)
Inductive Emission :=
| EData (s : Stream) (data : string)
| EError (e : JsError)
| EExit (code : option Z).

Inductive Listener :=
| LData (s : Stream) (f : string -> Task Value)
| LError (f : JsError -> Task Value)
| LExit (f : option Z -> Task Value).

(** The observable history of a run; [tid] names the invocation that acts. *)
Inductive Obs :=
| ONew (tid : nat) (this : Ref)
| ODecoderWrite (tid : nat) (this : Ref) (data : string)
| OIncludes (tid : nat) (this : Ref) (port : N)
| OPush (tid : nat) (this : Ref) (port : N)
| OHost (tid : nat) (c : HostCall)
| OSpawn (tid : nat) (p : Proc) (script : string) (args : list string)
       (opts : option SpawnOpts)
| OCall (tid : nat) (c : AsyncCall)
| OReturn (tid : nat) (r : Resp)
| OEmit (p : Proc) (e : Emission)
| OSettle (tid : nat) (o : Outcome).

(** The state of the event loop: the calls in flight with their callbacks,
  the listeners on the children, the harness objects, the children (with
  whether each has exited), the history (latest first) and the promises
  already settled. *)
Record Machine := MkMachine {
pending : list (nat * Task Value);
listeners : list (nat * Proc * Listener);
heap : list KafkaManager;
procs : list bool;
trace : list Obs;
settled : list (nat * Outcome) }.

Definition init : Machine := MkMachine [] [] [] [] [] [].

Definition m_log (o : Obs) (m : Machine) : Machine :=
MkMachine (pending m) (listeners m) (heap m) (procs m) (o :: trace m) (settled m).

Definition m_wait (tid : nat) (c : AsyncCall) (t : Task Value) (m : Machine) : Machine :=
MkMachine (pending m ++ [(tid, t)]) (listeners m) (heap m) (procs m)
          (OCall tid c :: trace m) (settled m).

Definition m_listen (tid : nat) (p : Proc) (l : Listener) (m : Machine) : Machine :=
MkMachine (pending m) (listeners m ++ [(tid, p, l)]) (heap m) (procs m)
          (trace m) (settled m).

Definition m_heap (h : list KafkaManager) (m : Machine) : Machine :=
MkMachine (pending m) (listeners m) h (procs m) (trace m) (settled m).

Definition m_procs (ps : list bool) (m : Machine) : Machine :=
MkMachine (pending m) (listeners m) (heap m) ps (trace m) (settled m).

Definition m_pending (ts : list (nat * Task Value)) (m : Machine) : Machine :=
MkMachine ts (listeners m) (heap m) (procs m) (trace m) (settled m).

Fixpoint assoc_outcome (tid : nat) (l : list (nat * Outcome)) : option Outcome :=
match l with
| [] => None
| (t, o) :: rest => if Nat.eqb t tid then Some o else assoc_outcome tid rest
end.

Definition outcome_of (tid : nat) (m : Machine) : option Outcome :=
assoc_outcome tid (settled m).

(** A promise settles once: a later [resolve] or [reject] is a no-op. *)
Definition m_settle (tid : nat) (o : Outcome) (m : Machine) : Machine :=
match outcome_of tid m with
| Some _ => m
| None =>
    MkMachine (pending m) (listeners m) (heap m) (procs m)
              (OSettle tid o :: trace m) (settled m ++ [(tid, o)])
end.


(** [logDebug(msg, args)]: [console.log] when the environment asks for
    verbose output. *)
Definition logDebug (tid : nat) (msg : string) (args : JsVal) (m : Machine) : Machine :=
  MkMachine (pending m) (listeners m) (heap m) (procs m)
            (if verbose then OHost tid (ConsoleLog msg args) :: trace m else trace m)
            (settled m).

(** Runs the synchronous code of [t] up to the end of the current turn:
    host calls take effect, listeners and callbacks are registered. *)
Fixpoint advance (tid : nat) (t : Task Value) (m : Machine) : Machine :=
  match t with
  | Done v => m_settle tid (Resolved v) m
  | Fail e => m_settle tid (Rejected e) m
  | Idle => m
  | NewManager o k =>
      advance tid (k (length (heap m)))
              (m_log (ONew tid (length (heap m))) (m_heap (heap m ++ [o]) m))
  | DecoderWrite this data k =>
      match heap m !! this with
      | Some o =>
          let '(text, held) := decoder_write (decoder o) data in
          advance tid (k text)
            (m_log (ODecoderWrite tid this data)
               (m_heap (<[this := MkManager held (takenPorts o)]> (heap m)) m))
      | None => m
      end
  | TakenPortsIncludes this port k =>
      match heap m !! this with
      | Some o =>
          advance tid (k (bool_decide (port ∈ takenPorts o)))
                  (m_log (OIncludes tid this port) m)
      | None => m
      end
  | TakenPortsPush this port k =>
      match heap m !! this with
      | Some o =>
          advance tid k
            (m_log (OPush tid this port)
               (m_heap (<[this := MkManager (decoder o) (takenPorts o ++ [port])]>
                          (heap m)) m))
      | None => m
      end
  | Host c k => advance tid k (m_log (OHost tid c) m)
  | LogDebug msg args k => advance tid k (logDebug tid msg args m)
  | Spawn script args opts k =>
      advance tid (k (length (procs m)))
              (m_log (OSpawn tid (length (procs m)) script args opts)
                     (m_procs (procs m ++ [false]) m))
  | OnData p s l k => advance tid k (m_listen tid p (LData s l) m)
  | OnError p l k => advance tid k (m_listen tid p (LError l) m)
  | OnExit p l k => advance tid k (m_listen tid p (LExit l) m)
  | GetPort _ => m_wait tid CGetPort t m
  | GetPorts n _ => m_wait tid (CGetPorts n) t m
  | TmpDir prefix u _ => m_wait tid (CTmpDir prefix u) t m
  | CreateEditor file _ => m_wait tid (CCreateEditor file) t m
  | Save file props _ => m_wait tid (CSave file props) t m
  | Exec command _ => m_wait tid (CExec command) t m
  | SetTimeout ms _ => m_wait tid (CSetTimeout ms) t m
  end.

(** The callback of a call in flight applied to the answer of the host. *)
Definition complete (t : Task Value) (r : Resp) : option (Task Value) :=
  match t, r with
  | GetPort cb, RPort err port => Some (cb err port)
  | GetPorts _ cb, RPorts err ports => Some (cb err ports)
  | TmpDir _ _ cb, RDir err path => Some (cb err path)
  | CreateEditor _ cb, REditor err props => Some (cb err props)
  | Save _ _ cb, RSaved err => Some (cb err)
  | Exec _ cb, RExec err out errout => Some (cb err out errout)
  | SetTimeout _ cb, RTimeout => Some cb
  | _, _ => None
  end.

Definition fire (l : Listener) (e : Emission) : option (Task Value) :=
  match l, e with
  | LData s f, EData s' data => if decide (s = s') then Some (f data) else None
  | LError f, EError err => Some (f err)
  | LExit f, EExit code => Some (f code)
  | _, _ => None
  end.

Definition is_exit (e : Emission) : bool :=
  match e with EExit _ => true | _ => false end.

(** Delivers [e] to the listeners registered on [p], in registration
    order. *)
Definition deliver (p : Proc) (e : Emission)
    (ls : list (nat * Proc * Listener)) (m : Machine) : Machine :=
  foldl (fun m '(tid, q, l) =>
           if decide (q = p)
           then match fire l e with Some t => advance tid t m | None => m end
           else m) m ls.

(** The choices of the environment: answer the [i]-th call in flight, or
    have the child [p] emit an event. *)
Inductive Choice :=
| Complete (i : nat) (r : Resp)
| Emit (p : Proc) (e : Emission).

(** One turn of the loop; [None] when the choice is not enabled: no such
    call in flight, an answer of the wrong kind, no such child, or a second
    ['exit'] of a child. *)
Definition step (c : Choice) (m : Machine) : option Machine :=
  match c with
  | Complete i r =>
      match pending m !! i with
      | Some (tid, t) =>
          match complete t r with
          | Some t' =>
              Some (advance tid t'
                      (m_log (OReturn tid r) (m_pending (delete i (pending m)) m)))
          | None => None
          end
      | None => None
      end
  | Emit p e =>
      match procs m !! p with
      | Some exited =>
          if (exited && is_exit e)%bool then None
          else
            Some (deliver p e (listeners m)
                    (m_log (OEmit p e)
                       (if is_exit e then m_procs (<[p := true]> (procs m)) m
                        else m)))
      | None => None
      end
  end.

Fixpoint run (script : list Choice) (m : Machine) : option Machine :=
  match script with
  | [] => Some m
  | c :: rest =>
      match step c m with
      | Some m' => run rest m'
      | None => None
      end
  end.

(** The invocations [roots] start in order, each under its index. *)
Fixpoint start_from (tid : nat) (roots : list (Task Value)) (m : Machine) : Machine :=
  match roots with
  | [] => m
  | t :: rest => start_from (S tid) rest (advance tid t m)
  end.

Definition start (roots : list (Task Value)) : Machine := start_from 0 roots init.

(** A caller invokes [t] under the id [tid] in the state [m]. *)
Definition invoke (tid : nat) (t : Task Value) (m : Machine) : Machine :=
  advance tid t m.


(** ** Views of a history *)

(** The history of a run, oldest first. *)
Definition history (m : Machine) : list Obs := rev (trace m).

(** What the harness does, as opposed to console output, decoder writes and
    the emissions of the children. *)
Definition is_action (o : Obs) : bool :=
  match o with
  | OEmit _ _ | ODecoderWrite _ _ _ | OHost _ (ConsoleLog _ _) => false
  | _ => true
  end.

Definition actions (tr : list Obs) : list Obs := List.filter is_action tr.

Definition is_emission (o : Obs) : bool :=
  match o with OEmit _ _ => true | _ => false end.

(** The actions of the harness and the exits of the children. *)
Definition is_milestone (o : Obs) : bool :=
  match o with
  | OEmit _ (EExit _) => true
  | _ => is_action o
  end.

Definition milestones (tr : list Obs) : list Obs := List.filter is_milestone tr.

Definition call_of (o : Obs) : option AsyncCall :=
  match o with OCall _ c => Some c | _ => None end.

(** The asynchronous calls issued so far, oldest first. *)
Definition calls (m : Machine) : list AsyncCall := omap call_of (history m).

(** The managers constructed so far: who constructed which, oldest first. *)
Definition new_of (o : Obs) : option (nat * Ref) :=
  match o with ONew tid this => Some (tid, this) | _ => None end.

Definition constructed (m : Machine) : list (nat * Ref) := omap new_of (history m).

(** The accesses to the fields of a manager: who touched which object. *)
Definition access_of (o : Obs) : option (nat * Ref) :=
  match o with
  | ONew tid this | ODecoderWrite tid this _ | OIncludes tid this _
  | OPush tid this _ => Some (tid, this)
  | _ => None
  end.

(** Reads and writes of [takenPorts]. *)
Definition touches_takenPorts (o : Obs) : bool :=
  match o with OIncludes _ _ _ | OPush _ _ _ => true | _ => false end.

(** The port of the handle an invocation resolved with. *)
Definition resolved_port (o : option Outcome) : option N :=
  match o with
  | Some (Resolved (VHandle h)) => kafkaPort h
  | _ => None
  end.

(** ** Shapes of callbacks *)

(** A callback that only decodes and logs. *)
Inductive logger : Task Value -> Prop :=
| logger_idle : logger Idle
| logger_log msg a k : logger k -> logger (LogDebug msg a k)
| logger_decode this data k :
    (forall text, logger (k text)) -> logger (DecoderWrite this data k).

(** A callback that logs and then resolves with [v]. *)
Inductive resolves_with (v : Value) : Task Value -> Prop :=
| rw_done : resolves_with v (Done v)
| rw_log msg a k : resolves_with v k -> resolves_with v (LogDebug msg a k).

(** A listener that only decodes and logs, whatever is emitted. *)
Definition passive (x : nat * Proc * Listener) : Prop :=
  forall e t, fire (snd x) e = Some t -> logger t.

(** A listener that stays silent, or only decodes and logs, when [p] emits [e]. *)
Definition silent_on (p : Proc) (e : Emission) (x : nat * Proc * Listener) : Prop :=
  snd (fst x) = p -> forall t, fire (snd x) e = Some t -> logger t.

(** Two states that differ in console output, decoder state and the record
    of emissions only. *)
Record quiet (m m' : Machine) : Prop := {
  q_pending : pending m' = pending m;
  q_listeners : listeners m' = listeners m;
  q_settled : settled m' = settled m;
  q_procs : procs m' = procs m;
  q_trace : exists extra, trace m' = extra ++ trace m /\ milestones extra = [];
  q_heap : length (heap m') = length (heap m);
  q_taken : map takenPorts (heap m') = map takenPorts (heap m) }.

(** ** The invocations the properties are about *)

(** [makeKafkaServer()] as a caller awaits it. *)
Definition factory : Task Value := h ← makeKafkaServer; Done (VHandle h).

(** [handle.close()] as a caller awaits it. *)
Definition close_root (h : BrokerHandle) : Task Value := close h ;; Done VUnit.

(** A caller that starts a broker and closes it once it has the handle. *)
Definition lifecycle : Task Value := h ← makeKafkaServer; close h ;; Done VUnit.

Definition storage_root (this : Ref) (propertiesFile : string) : Task Value :=
  initializeStorage this propertiesFile ;; Done VUnit.

Definition config_root (this : Ref) (kafkaDir : string)
    (controllerPort kafkaPort : option N) : Task Value :=
  f ← createKafkaConfig this kafkaDir controllerPort kafkaPort; Done (VString f).

Definition port_root (init : KafkaManager) (fuel : nat) : Task Value :=
  NewManager init (fun this => p ← getAvailablePort fuel this; Done (VPort p)).

(** *** Names of what the history shows *)

Definition start_script : string :=
  if IS_WINDOWS then path_join [KAFKA_BIN; "windows"; "kafka-server-start.bat"]
  else path_join [KAFKA_BIN; "kafka-server-start.sh"].

Definition stop_script : string :=
  if IS_WINDOWS then path_join [KAFKA_BIN; "windows"; "kafka-server-stop.bat"]
  else path_join [KAFKA_BIN; "kafka-server-stop.sh"].

Definition storage_script : string :=
  if IS_WINDOWS then path_join [KAFKA_BIN; "windows"; "kafka-storage.bat"]
  else path_join [KAFKA_BIN; "kafka-storage.sh"].

Definition format_command (f : string) : string :=
  storage_script +:+ " format -t " +:+ dquote +:+ "$(" +:+ storage_script
    +:+ " random-uuid)" +:+ dquote +:+ " -c " +:+ f +:+ " --standalone".

Definition config_file (dir : string) : string :=
  dir +:+ path_sep +:+ "server.properties".

Definition listeners_value (kafkaPort controllerPort : option N) : string :=
  "PLAINTEXT://localhost:" +:+ template_port kafkaPort
    +:+ ",CONTROLLER://localhost:" +:+ template_port controllerPort.

Definition overridden_keys : list string :=
  ["log.dirs"; "controller.quorum.bootstrap.servers"; "listeners";
   "advertised.listeners"; "controller.listener.names"].

Definition instance_props (dir : string) (ports : list N) (tmpl : Props) : Props :=
  <["controller.listener.names" := "CONTROLLER"]> (
  <["advertised.listeners" := listeners_value (ports !! 0%nat) (ports !! 1%nat)]> (
  <["listeners" := listeners_value (ports !! 0%nat) (ports !! 1%nat)]> (
  <["controller.quorum.bootstrap.servers" :=
      "localhost:" +:+ template_port (ports !! 1%nat)]> (
  <["log.dirs" := escape_backslashes dir]> tmpl)))).

Definition child_opts (dir : string) : option SpawnOpts :=
  Some {| spawn_env := <["JMX_PORT" := EmptyString]> process_env; spawn_cwd := dir |}.

(** The handle of the first invocation, on the child [proc]. *)
Definition handle_of (ports : list N) (proc : Proc) : BrokerHandle :=
  {| kafkaPort := ports !! 0%nat;
     close := killProcess 0 proc ;; stopKafkaServer 0 |}.

(** What the host answered to a provisioning that reached the spawn. *)
Record Answers := MkAnswers {
  a_ports : list N; a_dir : string; a_tmpl : Props;
  a_saved : option JsError; a_stdout : string; a_stderr : string }.

Definition h_created : list Obs :=
  [ONew 0 0; OHost 0 TmpSetGracefulCleanup; OHost 0 (PortfinderSetBasePort BASE_PORT);
   OHost 0 ConsoleOverride; OCall 0 (CGetPorts 2)].

Definition h_ports (ports : list N) : list Obs :=
  h_created ++ [OReturn 0 (RPorts None ports); OCall 0 (CTmpDir "kafka-" true)].

Definition h_dir (ports : list N) (dir : string) : list Obs :=
  h_ports ports ++ [OReturn 0 (RDir None dir); OCall 0 (CCreateEditor KAFKA_PROPERTIES)].

Definition h_editor (ports : list N) (dir : string) (tmpl : Props) : list Obs :=
  h_dir ports dir
    ++ [OReturn 0 (REditor None tmpl);
        OCall 0 (CSave (config_file dir) (instance_props dir ports tmpl))].

Definition h_saved (ports : list N) (dir : string) (tmpl : Props)
    (serr : option JsError) : list Obs :=
  h_editor ports dir tmpl
    ++ [OReturn 0 (RSaved serr); OCall 0 (CExec (format_command (config_file dir)))].

Definition h_spawned (a : Answers) : list Obs :=
  h_saved (a_ports a) (a_dir a) (a_tmpl a) (a_saved a)
    ++ [OReturn 0 (RExec None (a_stdout a) (a_stderr a));
        OSpawn 0 0 start_script [config_file (a_dir a)] (child_opts (a_dir a));
        OCall 0 (CSetTimeout WAIT_TIME)].

Definition h_failed (before : list Obs) (r : Resp) (e : JsError) : list Obs :=
  before ++ [OReturn 0 r; OSettle 0 (Rejected e)].

(** Where an invocation of the factory stands. *)
Inductive Stage :=
| AtPorts
| PortsFailed (e : JsError) (ports : list N)
| AtDir (ports : list N)
| DirFailed (ports : list N) (e : JsError) (path : string)
| AtEditor (ports : list N) (dir : string)
| EditorFailed (ports : list N) (dir : string) (e : JsError) (props : Props)
| AtSave (ports : list N) (dir : string) (tmpl : Props)
| AtExec (ports : list N) (dir : string) (tmpl : Props) (serr : option JsError)
| ExecFailed (ports : list N) (dir : string) (tmpl : Props) (serr : option JsError)
             (e : JsError) (out errout : string)
| AtTimer (a : Answers)
| Handed (a : Answers).

Definition stage_history (st : Stage) : list Obs :=
  match st with
  | AtPorts => h_created
  | PortsFailed e ports => h_failed h_created (RPorts (Some e) ports) e
  | AtDir ports => h_ports ports
  | DirFailed ports e path => h_failed (h_ports ports) (RDir (Some e) path) e
  | AtEditor ports dir => h_dir ports dir
  | EditorFailed ports dir e props =>
      h_failed (h_dir ports dir) (REditor (Some e) props) e
  | AtSave ports dir tmpl => h_editor ports dir tmpl
  | AtExec ports dir tmpl serr => h_saved ports dir tmpl serr
  | ExecFailed ports dir tmpl serr e out errout =>
      h_failed (h_saved ports dir tmpl serr) (RExec (Some e) out errout) e
  | AtTimer a => h_spawned a
  | Handed a =>
      h_spawned a
        ++ [OReturn 0 RTimeout;
            OSettle 0 (Resolved (VHandle (handle_of (a_ports a) 0)))]
  end.

Definition stage_outcome (st : Stage) : option Outcome :=
  match st with
  | PortsFailed e _ | DirFailed _ e _ | EditorFailed _ _ e _
  | ExecFailed _ _ _ _ e _ _ => Some (Rejected e)
  | Handed a => Some (Resolved (VHandle (handle_of (a_ports a) 0)))
  | _ => None
  end.

(** After the spawn: the listeners only log, and the timer is pending or the
    handle has been produced. *)
Definition post_spawn (h : BrokerHandle) (acts : list Obs) (m : Machine) : Prop :=
  Forall passive (listeners m) /\ length (procs m) = 1 /\
  ((exists ms cb, pending m = [(0, SetTimeout ms cb)] /\
      resolves_with (VHandle h) cb /\ settled m = [] /\ actions (trace m) = acts) \/
   (pending m = [] /\ settled m = [(0, Resolved (VHandle h))] /\
    actions (trace m) = OSettle 0 (Resolved (VHandle h)) :: OReturn 0 RTimeout :: acts)).

Definition stage_control (st : Stage) (m : Machine) : Prop :=
  match st with
  | AtTimer a | Handed a => post_spawn (handle_of (a_ports a) 0) (rev (h_spawned a)) m
  | _ => procs m = [] /\ Forall (fun o => is_emission o = false) (trace m)
  end.

(** The error of an answer to one of the four provisioning steps that check
    it: the callback of [props.save] ignores its argument and the timer has
    none. *)
Definition step_failure (r : Resp) : option JsError :=
  match r with
  | RPorts (Some e) _ | RDir (Some e) _ | REditor (Some e) _
  | RExec (Some e) _ _ => Some e
  | _ => None
  end.

(** The order of a shutdown: the kill, the exit of the broker, the stop
    script, its exit, and the promise of [close]. *)
Definition shutdown_sequence (c c' : option Z) : list Obs :=
  [OHost 1 (Kill 0 "SIGKILL"); OEmit 0 (EExit c); OSpawn 1 1 stop_script [] None;
   OEmit 1 (EExit c'); OSettle 1 (Resolved VUnit)].

(** *** Shutdown *)

(** A callback that logs and then spawns the stop script, with a listener
    that resolves when the script exits. *)
Inductive spawns_stop : Task Value -> Prop :=
| ss_spawn k :
    (forall q, k q = OnExit q (fun _ => Done VUnit) Idle) ->
    spawns_stop (Spawn stop_script [] None k)
| ss_log msg a k : spawns_stop k -> spawns_stop (LogDebug msg a k).

(** The states of a [close] invoked under the id [1] on the broker [0], once
    [k + 1] steps of the shutdown sequence have happened: [ls] are the
    listeners of the start and [base] the history before the call. *)
Definition close_inv (ls : list (nat * Proc * Listener)) (base : list Obs)
    (k : nat) (c c' : option Z) (m : Machine) : Prop :=
  pending m = [] /\ Forall passive ls /\
  exists new kl,
    trace m = new ++ base /\ (forall x, spawns_stop (kl x)) /\
    milestones (rev new) = take (S k) (shutdown_sequence c c') /\
    match k with
    | 0%nat =>
        listeners m = ls ++ [(1%nat, 0%nat, LExit kl)] /\
        (exists b, procs m = [b]) /\ outcome_of 1 m = None
    | 2%nat =>
        exists dl, (forall x, dl x = Done VUnit) /\
          listeners m = ls ++ [(1%nat, 0%nat, LExit kl); (1%nat, 1%nat, LExit dl)] /\
          procs m = [true; false] /\ outcome_of 1 m = None
    | 4%nat =>
        exists dl, (forall x, dl x = Done VUnit) /\
          listeners m = ls ++ [(1%nat, 0%nat, LExit kl); (1%nat, 1%nat, LExit dl)] /\
          procs m = [true; true] /\ outcome_of 1 m = Some (Resolved VUnit)
    | _ => False
    end.

(** *** Ownership of the managers *)

(** A task whose only access to a manager is a decoder write on [this]: it
    constructs no manager and neither reads nor writes [takenPorts]. *)
Inductive confined (this : Ref) : Task Value -> Prop :=
| cf_done v : confined this (Done v)
| cf_fail e : confined this (Fail e)
| cf_idle : confined this Idle
| cf_decode data k :
    (forall text, confined this (k text)) -> confined this (DecoderWrite this data k)
| cf_host c k : confined this k -> confined this (Host c k)
| cf_log msg a k : confined this k -> confined this (LogDebug msg a k)
| cf_spawn script args opts k :
    (forall p, confined this (k p)) -> confined this (Spawn script args opts k)
| cf_ondata p s l k :
    (forall d, confined this (l d)) -> confined this k -> confined this (OnData p s l k)
| cf_onerror p l k :
    (forall e, confined this (l e)) -> confined this k -> confined this (OnError p l k)
| cf_onexit p l k :
    (forall c, confined this (l c)) -> confined this k -> confined this (OnExit p l k)
| cf_getport cb : (forall err port, confined this (cb err port)) -> confined this (GetPort cb)
| cf_getports n cb :
    (forall err ports, confined this (cb err ports)) -> confined this (GetPorts n cb)
| cf_tmpdir prefix u cb :
    (forall err path, confined this (cb err path)) -> confined this (TmpDir prefix u cb)
| cf_editor file cb :
    (forall err props, confined this (cb err props)) -> confined this (CreateEditor file cb)
| cf_save file props cb :
    (forall err, confined this (cb err)) -> confined this (Save file props cb)
| cf_exec command cb :
    (forall err out errout, confined this (cb err out errout)) ->
    confined this (Exec command cb)
| cf_timeout ms cb : confined this cb -> confined this (SetTimeout ms cb).

(** An invocation that first constructs its own manager, with no port taken,
    and from then on is confined to it. *)
Definition fresh_manager (t : Task Value) : Prop :=
  exists init k, t = NewManager init k /\ takenPorts init = [] /\
                 forall this, confined this (k this).

(** Every invocation [tid] works on the manager [tid], the one it
    constructed, and no [takenPorts] is read or written. *)
Definition owned (m : Machine) : Prop :=
  (forall tid t, (tid, t) ∈ pending m -> confined tid t) /\
  (forall tid p l e t, (tid, p, l) ∈ listeners m -> fire l e = Some t -> confined tid t) /\
  Forall (fun o => takenPorts o = []) (heap m) /\
  (forall o tid this, o ∈ trace m -> access_of o = Some (tid, this) -> this = tid) /\
  (forall o, o ∈ trace m -> touches_takenPorts o = false) /\
  constructed m = (fun i => (i, i)) <$> seq 0 (length (heap m)).

(** A shutdown is in one of its phases. *)
Definition closing (ls : list (nat * Proc * Listener)) (base : list Obs)
    (m : Machine) : Prop :=
  exists k c c', close_inv ls base k c c' m.

(** An observation that respects the ownership: an access is to the
    manager of the invocation itself, and is not to [takenPorts]. *)
Definition ok_obs (o : Obs) : Prop :=
  (forall tid this, access_of o = Some (tid, this) -> this = tid) /\
  touches_takenPorts o = false.

(** *** The operations on their own *)

(** [waitFor(ms)] as a caller awaits it. *)
Definition wait_root (this : Ref) (ms : N) : Task Value :=
  waitFor this ms ;; Done VUnit.

(** [createTempDirectory(prefix)] as a caller awaits it. *)
Definition dir_root (this : Ref) (prefix : string) : Task Value :=
  path ← createTempDirectory this prefix; Done (VString path).

(** [allocatePorts()] as a caller awaits it. *)
Definition ports_root (this : Ref) : Task Value :=
  ports ← allocatePorts this; Done (VPorts ports).

(** A backslash occurs in [s]. *)
Fixpoint has_backslash (s : string) : bool :=
  match s with
  | EmptyString => false
  | String c rest => (Ascii.eqb c "\"%char || has_backslash rest)%bool
  end.

(** *** The recursion of [getAvailablePort] *)

(** [getAvailablePort()] on the manager [0] with [fuel] probes left, as a
    caller awaits it. *)
Definition port_task (fuel : nat) : Task Value :=
  p ← getAvailablePort fuel 0; Done (VPort p).

(** The history of the probes that were answered with the ports [skipped],
    each found in [takenPorts]. *)
Definition h_skipped (skipped : list N) : list Obs :=
  ONew 0 0
    :: flat_map (fun p => [OCall 0 CGetPort; OReturn 0 (RPort None p); OIncludes 0 0 p])
         skipped.

(** Where an invocation of [getAvailablePort] stands. *)
Inductive PortStage :=
| Probing (skipped : list N) (fuel : nat)
| Exhausted (skipped : list N)
| Accepted (skipped : list N) (p : N)
| Refused (skipped : list N) (e : JsError) (port : N).

Definition port_history (st : PortStage) : list Obs :=
  match st with
  | Probing skipped _ => h_skipped skipped ++ [OCall 0 CGetPort]
  | Exhausted skipped => h_skipped skipped
  | Accepted skipped p =>
      h_skipped skipped
        ++ [OCall 0 CGetPort; OReturn 0 (RPort None p); OIncludes 0 0 p;
            OSettle 0 (Resolved (VPort p))]
  | Refused skipped e port =>
      h_skipped skipped
        ++ [OCall 0 CGetPort; OReturn 0 (RPort (Some e) port); OSettle 0 (Rejected e)]
  end.

Definition port_settled (st : PortStage) : list (nat * Outcome) :=
  match st with
  | Accepted _ p => [(0%nat, Resolved (VPort p))]
  | Refused _ e _ => [(0%nat, Rejected e)]
  | _ => []
  end.

Definition port_pending (st : PortStage) : list (nat * Task Value) :=
  match st with
  | Probing _ fuel => [(0%nat, port_task (S fuel))]
  | _ => []
  end.

Definition port_skipped (st : PortStage) : list N :=
  match st with
  | Probing skipped _ | Exhausted skipped | Accepted skipped _
  | Refused skipped _ _ => skipped
  end.

(** The states of [getAvailablePort] on a manager created as [init]. *)
Definition port_inv (init0 : KafkaManager) (m : Machine) : Prop :=
  exists st,
    actions (trace m) = rev (port_history st) /\
    settled m = port_settled st /\
    pending m = port_pending st /\
    heap m = [init0] /\
    procs m = [] /\
    Forall (fun p => p ∈ takenPorts init0) (port_skipped st) /\
    match st with Accepted _ p => p ∉ takenPorts init0 | _ => True end.

(** *** Console output *)

(** A task whose only console output goes through [logDebug]: it never
    calls [console.log] itself. *)
Inductive hushed : Task Value -> Prop :=
| hu_done v : hushed (Done v)
| hu_fail e : hushed (Fail e)
| hu_idle : hushed Idle
| hu_new init0 k : (forall r, hushed (k r)) -> hushed (NewManager init0 k)
| hu_decode this data k :
    (forall text, hushed (k text)) -> hushed (DecoderWrite this data k)
| hu_includes this port k :
    (forall b, hushed (k b)) -> hushed (TakenPortsIncludes this port k)
| hu_push this port k : hushed k -> hushed (TakenPortsPush this port k)
| hu_host c k :
    (forall msg a, c <> ConsoleLog msg a) -> hushed k -> hushed (Host c k)
| hu_log msg a k : hushed k -> hushed (LogDebug msg a k)
| hu_spawn script args opts k :
    (forall p, hushed (k p)) -> hushed (Spawn script args opts k)
| hu_ondata p s l k :
    (forall d, hushed (l d)) -> hushed k -> hushed (OnData p s l k)
| hu_onerror p l k :
    (forall e, hushed (l e)) -> hushed k -> hushed (OnError p l k)
| hu_onexit p l k :
    (forall c, hushed (l c)) -> hushed k -> hushed (OnExit p l k)
| hu_getport cb : (forall err port, hushed (cb err port)) -> hushed (GetPort cb)
| hu_getports n cb :
    (forall err ports, hushed (cb err ports)) -> hushed (GetPorts n cb)
| hu_tmpdir prefix u cb :
    (forall err path, hushed (cb err path)) -> hushed (TmpDir prefix u cb)
| hu_editor file cb :
    (forall err props, hushed (cb err props)) -> hushed (CreateEditor file cb)
| hu_save file props cb :
    (forall err, hushed (cb err)) -> hushed (Save file props cb)
| hu_exec command cb :
    (forall err out errout, hushed (cb err out errout)) -> hushed (Exec command cb)
| hu_timeout ms cb : hushed cb -> hushed (SetTimeout ms cb).

Definition is_console (o : Obs) : bool :=
  match o with OHost _ (ConsoleLog _ _) => true | _ => false end.

(** Nothing was written to the console, and nothing in flight will write
    to it except through [logDebug]. *)
Definition silent (m : Machine) : Prop :=
  (forall tid t, (tid, t) ∈ pending m -> hushed t) /\
  (forall tid p l e t, (tid, p, l) ∈ listeners m -> fire l e = Some t -> hushed t) /\
  Forall (fun o => is_console o = false) (trace m).

(** *** The decoder *)

Definition chunk_of (o : Obs) : option string :=
  match o with OEmit _ (EData _ data) => Some data | _ => None end.

Definition written_of (o : Obs) : option string :=
  match o with ODecoderWrite _ _ data => Some data | _ => None end.

(** The chunks the children wrote, on either stream, in the order of
    arrival. *)
Definition chunks (m : Machine) : list string := omap chunk_of (history m).

(** The chunks passed to [decoder.write], in order. *)
Definition decoded (m : Machine) : list string := omap written_of (history m).

(** An observation that is neither a chunk nor a decoder write. *)
Definition no_data (o : Obs) : Prop := chunk_of o = None /\ written_of o = None.

(** A callback that only logs. *)
Inductive logs_only : Task Value -> Prop :=
| lo_idle : logs_only Idle
| lo_log msg a k : logs_only k -> logs_only (LogDebug msg a k).

(** A callback that passes [data] to the decoder of the manager [0] and
    logs the text. *)
Inductive decodes (data : string) : Task Value -> Prop :=
| dc_write k : (forall text, logs_only (k text)) -> decodes data (DecoderWrite 0 data k).

(** The states of the factory once the child is spawned, as far as the
    decoder goes: the four listeners of [startKafkaProcess] are registered
    in the order of the source, on the one child and the one manager. *)
Definition wired (m : Machine) : Prop :=
  (exists f1 f2 f3 f4,
      listeners m = [(0%nat, 0%nat, LData Stdout f1); (0%nat, 0%nat, LData Stderr f2);
                     (0%nat, 0%nat, LError f3); (0%nat, 0%nat, LExit f4)] /\
      (forall d, decodes d (f1 d)) /\ (forall d, decodes d (f2 d)) /\
      (forall e, logs_only (f3 e)) /\ (forall c, logs_only (f4 c))) /\
  (exists o, heap m = [o]) /\
  length (procs m) = 1%nat /\
  (forall i tid t, pending m !! i = Some (tid, t) ->
                   exists ms cb v, t = SetTimeout ms cb /\ resolves_with v cb) /\
  omap written_of (trace m) = omap chunk_of (trace m).

(** *** The port probe *)

(** Modelled from the spec: the probe of the external package portfinder,
    which is not part of the repository.  The spec says that ports are
    obtained by scanning upward from a fixed base number and that a port is
    accepted when it is currently bindable.  [bound] are the ports some
    process has bound. *)
Fixpoint probe (bound : list N) (port : N) (fuel : nat) : option N :=
  match fuel with
  | O => None
  | S fuel' =>
      if bool_decide (port ∈ bound) then probe bound (port + 1)%N fuel'
      else Some port
  end.

Definition portfinder_getPorts (bound : list N) (base : N) : option (list N) :=
  p0 ← probe bound base (N.to_nat (65536 - base));
  p1 ← probe bound (p0 + 1)%N (N.to_nat (65535 - p0));
  Some [p0; p1].

(** *** A concrete host *)

Definition demo_properties : string := "/srv/harness/kafka/config/server.properties".

Definition demo_bin : string := "/srv/harness/kafka/bin".

Definition demo_env : Env := {[ "KAFKA_PLEASE_LOG" := "verbose"; "JMX_PORT" := "9999" ]}.

Definition demo_decoder (held data : string) : string * string :=
  (held +:+ data, EmptyString).

Definition demo_template : Props :=
  {[ "node.id" := "1"; "log.dirs" := "/tmp/kraft-combined-logs";
     "listeners" := "PLAINTEXT://:9092,CONTROLLER://:9093" ]}.

(** Nothing is bound on the host: portfinder answers its base port and the
    next one. *)
Definition demo_ports : list N := default [] (portfinder_getPorts [] BASE_PORT).

Definition spawn_enoent : JsError := MkError "spawn kafka-server-start.sh ENOENT" None.

Definition format_failed : JsError := MkError "Command failed" (Some 1%Z).

(** The provisioning succeeds and the timer fires. *)
Definition script_start : list Choice :=
  [Complete 0 (RPorts None demo_ports); Complete 0 (RDir None "/tmp/kafka-1");
   Complete 0 (REditor None demo_template); Complete 0 (RSaved None);
   Complete 0 (RExec None "Formatting metadata directory" EmptyString);
   Emit 0 (EData Stdout "started");
   Complete 0 RTimeout].

(** The server binary cannot be launched: the child emits ['error'] before
    the timer fires. *)
Definition script_spawn_error : list Choice :=
  [Complete 0 (RPorts None demo_ports); Complete 0 (RDir None "/tmp/kafka-1");
   Complete 0 (REditor None demo_template); Complete 0 (RSaved None);
   Complete 0 (RExec None "Formatting metadata directory" EmptyString);
   Emit 0 (EError spawn_enoent);
   Complete 0 RTimeout].

(** The format command fails. *)
Definition script_format_fails : list Choice :=
  [Complete 0 (RPorts None demo_ports); Complete 0 (RDir None "/tmp/kafka-1");
   Complete 0 (REditor None demo_template); Complete 0 (RSaved None);
   Complete 0 (RExec (Some format_failed) EmptyString "no such directory")].

(** The broker exits on the kill and the stop script runs to its end. *)
Definition script_close : list Choice :=
  [Emit 0 (EData Stderr "killed"); Emit 0 (EExit None); Emit 1 (EExit (Some 0%Z))].

(** Two invocations in the same process, before either broker is spawned:
    each answer goes to the call at the head of the queue, so the two
    pipelines alternate. *)
Definition script_two_instances : list Choice :=
  [Complete 0 (RPorts None demo_ports); Complete 0 (RPorts None demo_ports);
   Complete 0 (RDir None "/tmp/kafka-1"); Complete 0 (RDir None "/tmp/kafka-2");
   Complete 0 (REditor None demo_template); Complete 0 (REditor None demo_template);
   Complete 0 (RSaved None); Complete 0 (RSaved None);
   Complete 0 (RExec None EmptyString EmptyString);
   Complete 0 (RExec None EmptyString EmptyString);
   Complete 0 RTimeout; Complete 0 RTimeout].

(** * Properties *)

(** ** The event loop *)

Lemma quiet_refl m : quiet m m.
Proof. split; try done. by exists []. Qed.

Lemma milestones_app l1 l2 : milestones (l1 ++ l2) = milestones l1 ++ milestones l2.
Proof. apply List.filter_app. Qed.

Lemma actions_app l1 l2 : actions (l1 ++ l2) = actions l1 ++ actions l2.
Proof. apply List.filter_app. Qed.

Lemma milestones_rev l : milestones (rev l) = rev (milestones l).
Proof. apply List.filter_rev. Qed.

Lemma actions_history m : actions (history m) = rev (actions (trace m)).
Proof. apply List.filter_rev. Qed.

Lemma action_milestone o : is_action o = true -> is_milestone o = true.
Proof. by destruct o as [| | | | | | | |? []|]. Qed.

Lemma milestones_nil_actions l : milestones l = [] -> actions l = [].
Proof.
  induction l as [|o l IH]; [done|]. cbn.
  destruct (is_milestone o) eqn:Hm; [done|].
  destruct (is_action o) eqn:Ha; [|exact IH].
  apply action_milestone in Ha. congruence.
Qed.

Lemma quiet_trans m1 m2 m3 : quiet m1 m2 -> quiet m2 m3 -> quiet m1 m3.
Proof.
  intros [? ? ? ? (x1 & E1 & M1) ? ?] [? ? ? ? (x2 & E2 & M2) ? ?].
  split; try congruence.
  exists (x2 ++ x1). rewrite E2, E1, app_assoc, milestones_app, M1, M2. done.
Qed.

Lemma quiet_actions m m' : quiet m m' -> actions (trace m') = actions (trace m).
Proof.
  intros [_ _ _ _ (x & -> & Hx) _ _].
  by rewrite actions_app, (milestones_nil_actions _ Hx).
Qed.

Lemma quiet_log m o : is_milestone o = false -> quiet m (m_log o m).
Proof. intros Ho. split; try done. exists [o]. cbn. by rewrite Ho. Qed.

Lemma quiet_logDebug tid msg a m : quiet m (logDebug tid msg a m).
Proof.
  split; try done. cbn.
  destruct verbose; [by exists [OHost tid (ConsoleLog msg a)]|by exists []].
Qed.

(** A logging callback leaves the control state alone. *)
Lemma advance_logger tid t m : logger t -> quiet m (advance tid t m).
Proof.
  intros Hl; revert m; induction Hl as [|msg a k Hk IH|this data k Hk IH];
    intros m; cbn [advance].
  - apply quiet_refl.
  - eapply quiet_trans; [|apply IH]. apply quiet_logDebug.
  - destruct (heap m !! this) as [o|] eqn:Ho; [|apply quiet_refl].
    destruct (decoder_write (decoder o) data) as [text held].
    eapply quiet_trans; [|apply IH].
    eapply quiet_trans; [|by apply quiet_log].
    split; cbn; try done.
    + by exists [].
    + by rewrite length_insert.
    + rewrite list_fmap_insert. apply list_insert_id.
      rewrite list_lookup_fmap. unfold Ref in *. by rewrite Ho.
Qed.

Lemma deliver_app p e ls1 ls2 m :
  deliver p e (ls1 ++ ls2) m = deliver p e ls2 (deliver p e ls1 m).
Proof. apply foldl_app. Qed.

Lemma deliver_silent p e ls m :
  Forall (silent_on p e) ls -> quiet m (deliver p e ls m).
Proof.
  intros Hls; revert m; induction Hls as [|[[tid q] l] ls Hl Hls IH];
    intros m; cbn [deliver foldl].
  - apply quiet_refl.
  - eapply quiet_trans; [|apply IH].
    destruct (decide (q = p)) as [Hq|]; [|apply quiet_refl].
    destruct (fire l e) as [t|] eqn:Hf; [|apply quiet_refl].
    apply advance_logger. by apply (Hl Hq).
Qed.

Lemma passive_silent p e x : passive x -> silent_on p e x.
Proof. intros Hx _ t. apply Hx. Qed.

Lemma deliver_passive p e ls m : Forall passive ls -> quiet m (deliver p e ls m).
Proof.
  intros Hls. apply deliver_silent.
  eapply Forall_impl; [exact Hls|]. intros x. apply passive_silent.
Qed.

(** A callback that logs and resolves settles the promise, once. *)
Lemma advance_resolves tid v t m :
  resolves_with v t -> outcome_of tid m = None ->
  pending (advance tid t m) = pending m /\
  listeners (advance tid t m) = listeners m /\
  procs (advance tid t m) = procs m /\
  settled (advance tid t m) = settled m ++ [(tid, Resolved v)] /\
  exists extra, trace (advance tid t m) = OSettle tid (Resolved v) :: extra ++ trace m /\
                milestones extra = [].
Proof.
  intros Hr; revert m; induction Hr as [|msg a k Hk IH]; intros m Hm; cbn [advance].
  - unfold m_settle. rewrite Hm. cbn. repeat split. by exists [].
  - destruct (quiet_logDebug tid msg a m) as [Q1 Q2 Q3 Q4 (x & Q5 & Q6) _ _].
    destruct (IH (logDebug tid msg a m)) as (E1 & E2 & E3 & E4 & extra & E5 & E6).
    { unfold outcome_of. by rewrite Q3. }
    rewrite E1, E2, E3, E4, E5, Q1, Q2, Q3, Q4, Q5. repeat split.
    exists (extra ++ x). rewrite milestones_app, E6, Q6. by rewrite <- app_assoc.
Qed.

Lemma assoc_outcome_snoc tid o l :
  assoc_outcome tid l = None -> assoc_outcome tid (l ++ [(tid, o)]) = Some o.
Proof.
  induction l as [|[t o'] l IH]; cbn; [by rewrite Nat.eqb_refl|].
  destruct (Nat.eqb t tid); [discriminate|exact IH].
Qed.

Lemma run_cons c s m m' :
  run (c :: s) m = Some m' <-> exists m1, step c m = Some m1 /\ run s m1 = Some m'.
Proof.
  cbn. destruct (step c m) as [m1|]; [|naive_solver]. naive_solver.
Qed.

(** An invariant of the steps is an invariant of the runs. *)
Lemma run_invariant (P : Machine -> Prop) :
  (forall c m m', P m -> step c m = Some m' -> P m') ->
  forall s m m', P m -> run s m = Some m' -> P m'.
Proof.
  intros Hstep s; induction s as [|c s IH]; intros m m' Hm Hrun.
  - cbn in Hrun. by injection Hrun as <-.
  - apply run_cons in Hrun as (m1 & Hc & Hrun). eauto.
Qed.


(** ** One invocation of the factory *)

#[local] Opaque verbose.

(** Symbolic execution: the machine functions are unfolded, the task at the
    head of [advance] is brought to head normal form, and the closures stay
    as the source has them. *)
Ltac machine_cbn H :=
  cbn [advance m_log m_wait m_listen m_heap m_procs m_pending m_settle
       outcome_of assoc_outcome pending listeners heap procs trace settled
       init start start_from invoke run step complete app length Nat.eqb
       lookup list_lookup delete list_delete] in H.

Ltac head_task H :=
  match type of H with
  | context [advance ?tid ?t ?m] =>
      let t' := eval hnf in t in
      progress change (advance tid t m) with (advance tid t' m) in H
  end.

Ltac state_norm H :=
  cbv [m_log m_wait m_listen m_heap m_procs m_pending m_settle logDebug
       outcome_of assoc_outcome pending listeners heap procs trace settled
       init app length Nat.eqb] in H;
  try match goal with Hv : verbose = _ |- _ => rewrite !Hv in H end;
  cbv iota in H.

Ltac exec H :=
  repeat first [ progress machine_cbn H | head_task H ];
  state_norm H.

Ltac unfold_methods H :=
  unfold factory, lifecycle, close_root, storage_root, config_root,
    makeKafkaServer, KafkaManager_constructor, setupConsoleOverrides,
    startKafkaServer, startKafkaProcess, createKafkaConfig, initializeStorage,
    killProcess, stopKafkaServer in H;
  unfold mbind, Task_bind in H.

(** The environment makes its next choice. *)
Ltac answer H :=
  match type of H with
  | run ?s _ = Some _ =>
      let c := fresh "c" in let i := fresh "i" in let r := fresh "r" in
      let p := fresh "p" in let e := fresh "e" in
      destruct s as [|c s];
      [ cbn [run] in H; injection H as <-
      | destruct c as [[|i] r|[|p] e]; machine_cbn H; try discriminate H;
        try (destruct r; machine_cbn H; try discriminate H) ]
  end.

(** Nothing is enabled in a state with no call in flight and no child. *)
Ltac dead H :=
  match type of H with
  | run ?s _ = Some _ =>
      destruct s as [|[[|?] ?|[|?] ?] ?]; machine_cbn H; try discriminate H;
      injection H as <-
  end.

Lemma post_spawn_step h acts c m m' :
  post_spawn h acts m -> step c m = Some m' -> post_spawn h acts m'.
Proof.
  intros (Hl & Hp & Hcase) Hstep.
  destruct c as [i r|p e]; cbn [step] in Hstep.
  - destruct Hcase as [(ms & cb & Hpe & Hcb & Hs & Ha)|(Hpe & Hs & Ha)];
      rewrite Hpe in Hstep; [|by destruct i].
    destruct i as [|i]; [|by destruct i].
    cbn in Hstep. destruct r; try discriminate Hstep. injection Hstep as <-.
    match goal with |- post_spawn _ _ (advance _ _ ?m0) =>
      destruct (advance_resolves 0 (VHandle h) cb m0 Hcb)
        as (E1 & E2 & E3 & E4 & extra & E5 & E6)
    end.
    { unfold outcome_of. cbn. by rewrite Hs. }
    split; [by rewrite E2|]. split; [by rewrite E3|]. right.
    rewrite E1, E4, E5. cbn. rewrite Hs. repeat split.
    change (OSettle 0 (Resolved (VHandle h)) :: actions (extra ++ OReturn 0 RTimeout :: trace m)
            = OSettle 0 (Resolved (VHandle h)) :: OReturn 0 RTimeout :: acts).
    rewrite actions_app, (milestones_nil_actions _ E6). cbn. fold (actions (trace m)).
    by rewrite Ha.
  - destruct (procs m !! p) as [ex|]; [|discriminate].
    destruct (ex && is_exit e)%bool; [discriminate|]. injection Hstep as <-.
    match goal with |- post_spawn _ _ (deliver _ _ _ ?m0) =>
      pose proof (deliver_passive p e (listeners m) m0 Hl) as Hq;
      assert (Hm0 : pending m0 = pending m /\ listeners m0 = listeners m /\
                    settled m0 = settled m /\ length (procs m0) = length (procs m) /\
                    actions (trace m0) = actions (trace m))
    end.
    { destruct (is_exit e); cbn; rewrite ?length_insert; destruct e; cbn; done. }
    destruct Hm0 as (F1 & F2 & F3 & F4 & F5).
    pose proof (quiet_actions _ _ Hq) as E5. destruct Hq as [E1 E2 E3 E4 _ _ _].
    split; [by rewrite E2, F2|]. split; [by rewrite E4, F4|].
    rewrite E1, E3, E5, F1, F3, F5. exact Hcase.
Qed.

Lemma post_spawn_run h acts s m m' :
  post_spawn h acts m -> run s m = Some m' -> post_spawn h acts m'.
Proof. apply (run_invariant (post_spawn h acts)), post_spawn_step. Qed.

Lemma post_spawn_stage a m :
  post_spawn (handle_of (a_ports a) 0) (rev (h_spawned a)) m ->
  exists st, actions (history m) = stage_history st /\
             outcome_of 0 m = stage_outcome st /\ stage_control st m.
Proof.
  intros Hp. pose proof Hp as (_ & _ & [(ms & cb & _ & _ & Hs & Ha)|(_ & Hs & Ha)]).
  - exists (AtTimer a). rewrite actions_history, Ha, rev_involutive.
    unfold outcome_of. rewrite Hs. done.
  - exists (Handed a). rewrite actions_history, Ha. cbn [rev].
    rewrite rev_involutive, <- app_assoc.
    unfold outcome_of. rewrite Hs. done.
Qed.

Ltac found st :=
  exists st; split; [reflexivity|]; split; [reflexivity|]; split;
  [reflexivity|repeat constructor].

Ltac spawned_state :=
  unfold post_spawn; cbn [listeners procs pending settled trace length]; split;
  [ repeat constructor; intros [[]| |] t Hf; cbn in Hf; try discriminate Hf;
    injection Hf as <-; repeat constructor
  | split; [reflexivity|]; left; eexists _, _;
    split; [reflexivity|]; split; [cbn [bind catch]; repeat constructor|];
    split; reflexivity ].

(** Every state an invocation of the factory reaches is at one of the
    stages, with the history of that stage. *)
Lemma factory_reach script m :
  run script (start [factory]) = Some m ->
  exists st, actions (history m) = stage_history st /\
             outcome_of 0 m = stage_outcome st /\ stage_control st m.
Proof.
  intros H. unfold_methods H.
  destruct verbose eqn:Hv.
  all: exec H.
  all: answer H; [found AtPorts|].
  all: destruct err as [e|]; exec H; [dead H; found (PortsFailed e ports)|].
  all: answer H; [found (AtDir ports)|].
  all: destruct err as [e|]; exec H; [dead H; found (DirFailed ports e path)|].
  all: answer H; [found (AtEditor ports path)|].
  all: destruct err as [e|]; exec H; [dead H; found (EditorFailed ports path e props)|].
  all: answer H; [found (AtSave ports path props)|].
  all: exec H.
  all: answer H; [found (AtExec ports path props err)|].
  all: destruct err0 as [e|]; exec H;
    [dead H; found (ExecFailed ports path props err e stdout stderr)|].
  all: destruct (bool_decide (stderr = "")); exec H.
  all: eapply (post_spawn_run (handle_of ports 0)
                 (rev (h_spawned (MkAnswers ports path props err stdout stderr)))) in H;
    [exact (post_spawn_stage (MkAnswers ports path props err stdout stderr) m H)|].
  all: spawned_state.
Qed.

(** *** What the history of an invocation lets one read off *)

Lemma elem_history o m : o ∈ history m <-> o ∈ trace m.
Proof. unfold history. rewrite !list_elem_of_In. symmetry. apply in_rev. Qed.

Lemma elem_actions o l : o ∈ actions l <-> o ∈ l /\ is_action o = true.
Proof. unfold actions. rewrite !list_elem_of_In. apply filter_In. Qed.

Lemma action_in_history o m :
  o ∈ history m -> is_action o = true -> o ∈ actions (history m).
Proof. intros. by apply elem_actions. Qed.

Lemma calls_actions l : omap call_of (actions l) = omap call_of l.
Proof.
  unfold actions. induction l as [|o l IH]; [done|].
  change (omap call_of (o :: l)) with
    (match call_of o with Some c => c :: omap call_of l | None => omap call_of l end).
  cbn [List.filter]. destruct (is_action o) eqn:Ho.
  - change (omap call_of (o :: List.filter is_action l)) with
      (match call_of o with
       | Some c => c :: omap call_of (List.filter is_action l)
       | None => omap call_of (List.filter is_action l)
       end).
    by rewrite IH.
  - rewrite IH. by destruct o as [| | | |? []| | | | |].
Qed.

Ltac stage_lists :=
  cbv [stage_history h_failed h_created h_ports h_dir h_editor h_saved h_spawned
       app] in *.

(** Membership in a list that is written out. *)
Ltac in_list H :=
  repeat (apply elem_of_cons in H as [H|H];
          [try discriminate H|]);
  try (by apply elem_of_nil in H).

(** An element of a list that is written out. *)
Ltac listed :=
  repeat first [ apply list_elem_of_here | apply list_elem_of_further ].

Ltac distinct :=
  repeat (apply NoDup_cons; split;
          [let Hin := fresh in intros Hin; in_list Hin|]);
  try apply NoDup_nil_2.

(** C8: the factory takes no argument and, when it resolves, resolves to a
    handle whose client port is the first port of the pair portfinder
    answered for this invocation and whose [close] kills the child and then
    runs the stop script; in the history the handle comes last, after the
    spawn of the child and after the timer of [WAIT_TIME] has fired. *)
Theorem C8_factory_resolves_to_handle script m v :
  run script (start [factory]) = Some m ->
  outcome_of 0 m = Some (Resolved v) ->
  exists (a : Answers) (h : BrokerHandle),
    v = VHandle h /\
    kafkaPort h = a_ports a !! 0%nat /\
    close h = (killProcess 0 0 ;; stopKafkaServer 0) /\
    OReturn 0 (RPorts None (a_ports a)) ∈ history m /\
    actions (history m)
      = h_saved (a_ports a) (a_dir a) (a_tmpl a) (a_saved a)
          ++ [OReturn 0 (RExec None (a_stdout a) (a_stderr a));
              OSpawn 0 0 start_script [config_file (a_dir a)] (child_opts (a_dir a));
              OCall 0 (CSetTimeout WAIT_TIME);
              OReturn 0 RTimeout;
              OSettle 0 (Resolved v)].
Proof.
  intros Hrun Hout.
  destruct (factory_reach script m Hrun) as (st & Hh & Ho & _).
  rewrite Hout in Ho.
  destruct st; try discriminate Ho. injection Ho as ->.
  exists a, (handle_of (a_ports a) 0). repeat split.
  - assert (Hin : OReturn 0 (RPorts None (a_ports a)) ∈ actions (history m)).
    { rewrite Hh. stage_lists. listed. }
    by apply elem_actions in Hin as [Hin _].
  - rewrite Hh. cbn [stage_history]. unfold h_spawned. by rewrite <- app_assoc.
Qed.

(** X19: an error that portfinder, [tmp.dir], the editor of the template
    or [exec] answers to its step ends the invocation: the factory rejects
    with that very error, the rejection is the last thing the harness does,
    and no host call is ever issued twice.  The error of [props.save] is not
    among them: its callback takes no argument. *)
Theorem checked_errors_are_terminal script m r e :
  run script (start [factory]) = Some m ->
  OReturn 0 r ∈ history m ->
  step_failure r = Some e ->
  outcome_of 0 m = Some (Rejected e) /\
  (exists before,
     actions (history m) = before ++ [OReturn 0 r; OSettle 0 (Rejected e)]) /\
  NoDup (calls m).
Proof.
  intros Hrun Hin Hf.
  destruct (factory_reach script m Hrun) as (st & Hh & Ho & _).
  apply action_in_history in Hin; [|done].
  unfold calls. rewrite <- calls_actions, Ho.
  rewrite Hh in *. clear Hh Ho Hrun.
  destruct st; stage_lists; in_list Hin; injection Hin as ->; cbn in Hf;
    try discriminate Hf; injection Hf as ->;
    (split; [reflexivity|]); (split; [|cbn; distinct]).
  - by exists h_created.
  - by exists (h_ports ports).
  - by exists (h_dir ports dir).
  - by exists (h_saved ports dir tmpl serr).
Qed.

(** C7: the child is spawned from the start script with the generated
    config file as its only argument, the workspace as its working
    directory, and the environment of the parent in which [JMX_PORT] is the
    empty string. *)
Theorem C7_child_spawned_on_config_in_workspace script m tid p s args opts :
  run script (start [factory]) = Some m ->
  OSpawn tid p s args opts ∈ history m ->
  exists dir props o,
    OReturn 0 (RDir None dir) ∈ history m /\
    OCall 0 (CSave (config_file dir) props) ∈ history m /\
    s = start_script /\ args = [config_file dir] /\
    opts = Some o /\ spawn_cwd o = dir /\
    spawn_env o !! "JMX_PORT" = Some EmptyString /\
    forall k, k <> "JMX_PORT" -> spawn_env o !! k = process_env !! k.
Proof.
  intros Hrun Hin.
  destruct (factory_reach script m Hrun) as (st & Hh & _ & _).
  apply action_in_history in Hin; [|done].
  assert (Hsub : forall o, o ∈ stage_history st -> o ∈ history m).
  { intros o Ho. rewrite <- Hh in Ho. by apply elem_actions in Ho as [Ho _]. }
  rewrite Hh in Hin. clear Hh Hrun.
  destruct st; stage_lists; in_list Hin; injection Hin as -> -> -> -> ->.
  all: exists (a_dir a), (instance_props (a_dir a) (a_ports a) (a_tmpl a)), 
         {| spawn_env := <["JMX_PORT" := EmptyString]> process_env;
            spawn_cwd := a_dir a |}.
  all: split; [apply Hsub; listed|]; split; [apply Hsub; listed|].
  all: repeat split; [apply lookup_insert_eq|].
  all: intros k Hk; by apply lookup_insert_ne.
Qed.

(** C2, as the code has it: when the server binary cannot be launched the
    child emits ['error'], which the harness only logs.  The start promise
    never rejects in such a run: it stays pending until the timer fires and
    then resolves with a handle. *)
Theorem C2_spawn_error_does_not_reject script m p e :
  run script (start [factory]) = Some m ->
  OEmit p (EError e) ∈ history m ->
  (forall e', outcome_of 0 m <> Some (Rejected e')) /\
  (OReturn 0 RTimeout ∈ history m ->
   exists h, outcome_of 0 m = Some (Resolved (VHandle h))).
Proof.
  intros Hrun Hin.
  destruct (factory_reach script m Hrun) as (st & Hh & Ho & Hc).
  apply elem_history in Hin.
  assert (Hsp : (exists a, st = AtTimer a) \/ (exists a, st = Handed a)).
  { destruct st; eauto; destruct Hc as [_ Hc];
      rewrite Forall_forall in Hc; by apply Hc in Hin. }
  rewrite Ho. destruct Hsp as [[a ->]|[a ->]]; cbn [stage_outcome].
  - split; [done|]. intros Ht.
    apply action_in_history in Ht; [|done]. rewrite Hh in Ht.
    stage_lists. in_list Ht.
  - split; [done|]. eauto.
Qed.

(** C5, at the step that does not check its error: when [props.save]
    reports that the config could not be written, the invocation is not
    ended.  The format of the storage is called next, on the file that was
    not written; the factory rejects only with an error of that [exec]; and
    when the timer has fired it has resolved with a handle. *)
Theorem C5_save_error_is_not_terminal script m e :
  run script (start [factory]) = Some m ->
  OReturn 0 (RSaved (Some e)) ∈ history m ->
  (exists dir, OCall 0 (CExec (format_command (config_file dir))) ∈ history m) /\
  (forall e', outcome_of 0 m = Some (Rejected e') ->
              exists out errout, OReturn 0 (RExec (Some e') out errout) ∈ history m) /\
  (OReturn 0 RTimeout ∈ history m ->
   exists h, outcome_of 0 m = Some (Resolved (VHandle h))).
Proof.
  intros Hrun Hin.
  destruct (factory_reach script m Hrun) as (st & Hh & Ho & _).
  apply action_in_history in Hin; [|done].
  assert (Hsub : forall o, o ∈ stage_history st -> o ∈ history m).
  { intros o Hin'. rewrite <- Hh in Hin'. by apply elem_actions in Hin' as [? _]. }
  assert (Hact : OReturn 0 RTimeout ∈ history m -> OReturn 0 RTimeout ∈ stage_history st).
  { intros Ht. rewrite <- Hh. by apply action_in_history. }
  rewrite Hh in Hin. rewrite Ho. clear Hh Ho Hrun.
  destruct st; stage_lists; in_list Hin; cbn [stage_outcome].
  - split; [exists dir; apply Hsub; listed|]. split; [done|].
    intros Ht%Hact. in_list Ht.
  - split; [exists dir; apply Hsub; listed|]. split.
    + intros e' [= <-]. exists out, errout. apply Hsub. listed.
    + intros Ht%Hact. in_list Ht.
  - split; [exists (a_dir a); apply Hsub; listed|]. split; [done|].
    intros Ht%Hact. in_list Ht.
  - split; [exists (a_dir a); apply Hsub; listed|]. split; [done|]. eauto.
Qed.

(** ** The provisioning steps on their own *)

Ltac storage_done :=
  let Heq := fresh "Heq" in
  let Hex := fresh "Hex" in
  let Hin := fresh "Hin" in
  split; [reflexivity|];
  cbn [outcome_of assoc_outcome settled Nat.eqb]; unfold history;
  cbn [trace rev app];
  split; [intros ?e|intros ?v];
  (split;
   [ intros Heq; try discriminate Heq; simplify_eq;
     try (split; [reflexivity|]); eexists _, _; listed
   | intros Hex;
     first [ destruct Hex as (-> & ? & ? & Hin) | destruct Hex as (? & ? & Hin) ];
     in_list Hin; simplify_eq; reflexivity ]).

(** C6: [initializeStorage] calls [exec] once, on the command line that
    formats the storage for the given config with a cluster id produced by
    the [random-uuid] sub-command; its promise rejects with the error of
    [exec] exactly when [exec] reports one, and resolves with no value
    exactly when it reports none. *)
Theorem C6_storage_formatted_once this f script m :
  run script (start [storage_root this f]) = Some m ->
  calls m = [CExec (format_command f)] /\
  (forall e, outcome_of 0 m = Some (Rejected e) <->
             exists out errout, OReturn 0 (RExec (Some e) out errout) ∈ history m) /\
  (forall v, outcome_of 0 m = Some (Resolved v) <->
             v = VUnit /\ exists out errout, OReturn 0 (RExec None out errout) ∈ history m).
Proof.
  intros H. unfold_methods H.
  destruct verbose eqn:Hv.
  all: exec H.
  all: answer H; [storage_done|].
  all: destruct err as [e|]; exec H.
  all: try (destruct (bool_decide (stderr = "")); exec H).
  all: dead H; storage_done.
Qed.

Ltac config_done Hin :=
  unfold history in Hin; cbn [trace rev app] in Hin;
  first
    [ solve [in_list Hin]
    | in_list Hin; simplify_eq;
      eexists; split; [unfold history; cbn [trace rev app]; listed|];
      split; [reflexivity|];
      repeat (split;
              [repeat (rewrite lookup_insert_ne by discriminate);
               apply lookup_insert_eq|]);
      let k := fresh "k" in let Hk := fresh "Hk" in
      intros k Hk;
      repeat (rewrite lookup_insert_ne;
              [|intros <-; apply Hk; unfold overridden_keys; listed]);
      reflexivity ].

(** The properties that [createKafkaConfig] saves, as the source writes
    them. *)
Lemma config_saved_props this dir cp kp script m file props :
  run script (start [config_root this dir cp kp]) = Some m ->
  OCall 0 (CSave file props) ∈ history m ->
  exists tmpl,
    OReturn 0 (REditor None tmpl) ∈ history m /\
    file = dir +:+ path_sep +:+ "server.properties" /\
    props !! "controller.listener.names" = Some "CONTROLLER" /\
    props !! "advertised.listeners" = Some (listeners_value kp cp) /\
    props !! "listeners" = Some (listeners_value kp cp) /\
    props !! "controller.quorum.bootstrap.servers"
      = Some ("localhost:" +:+ template_port cp) /\
    props !! "log.dirs" = Some (escape_backslashes dir) /\
    forall k, k ∉ overridden_keys -> props !! k = tmpl !! k.
Proof.
  intros H Hin. unfold_methods H.
  destruct verbose eqn:Hv.
  all: exec H.
  all: answer H; [config_done Hin|].
  all: destruct err as [e|]; exec H; [dead H; config_done Hin|].
  all: answer H; [config_done Hin|].
  all: exec H; dead H; config_done Hin.
Qed.

(** A port in a template literal is its decimal digits, and [undefined]
    when the array of portfinder had no such element. *)
Lemma template_port_text p : template_port p = from_option pretty "undefined" p.
Proof. by destruct p as [[|p]|]. Qed.

(** C3: the properties that [createKafkaConfig] saves are the template the
    editor was created from with the five keys set to the values of this
    instance: [log.dirs] is the workspace, [listeners] and
    [advertised.listeners] name the client port and the controller port in
    decimal, [controller.quorum.bootstrap.servers] names the controller
    port, and [controller.listener.names] is [CONTROLLER]; every other key
    has the value of the template; and the file is [server.properties]
    inside the workspace. *)
Theorem C3_config_overrides_five_keys this dir cp kp script m file props :
  run script (start [config_root this dir cp kp]) = Some m ->
  OCall 0 (CSave file props) ∈ history m ->
  exists tmpl,
    OReturn 0 (REditor None tmpl) ∈ history m /\
    file = dir +:+ path_sep +:+ "server.properties" /\
    props !! "controller.listener.names" = Some "CONTROLLER" /\
    props !! "advertised.listeners"
      = Some ("PLAINTEXT://localhost:" +:+ from_option pretty "undefined" kp
                +:+ ",CONTROLLER://localhost:" +:+ from_option pretty "undefined" cp) /\
    props !! "listeners"
      = Some ("PLAINTEXT://localhost:" +:+ from_option pretty "undefined" kp
                +:+ ",CONTROLLER://localhost:" +:+ from_option pretty "undefined" cp) /\
    props !! "controller.quorum.bootstrap.servers"
      = Some ("localhost:" +:+ from_option pretty "undefined" cp) /\
    props !! "log.dirs" = Some (escape_backslashes dir) /\
    forall k, k ∉ overridden_keys -> props !! k = tmpl !! k.
Proof.
  intros Hrun Hin.
  destruct (config_saved_props this dir cp kp script m file props Hrun Hin)
    as (tmpl & Hed & Hfile & Hnames & Hadv & Hlis & Hboot & Hlog & Hother).
  unfold listeners_value in Hadv, Hlis.
  rewrite (template_port_text kp), (template_port_text cp) in Hadv, Hlis.
  rewrite (template_port_text cp) in Hboot.
  exists tmpl.
  split; [exact Hed|]. split; [exact Hfile|]. split; [exact Hnames|].
  split; [exact Hadv|]. split; [exact Hlis|]. split; [exact Hboot|].
  split; [exact Hlog|exact Hother].
Qed.

(** ** Shutdown *)

Lemma milestones_rev_nil l : milestones l = [] -> milestones (rev l) = [].
Proof. intros Hl. by rewrite milestones_rev, Hl. Qed.

Lemma advance_spawns_stop tid t m :
  spawns_stop t ->
  pending (advance tid t m) = pending m /\
  settled (advance tid t m) = settled m /\
  procs (advance tid t m) = procs m ++ [false] /\
  exists dl extra,
    (forall x, dl x = Done VUnit) /\
    listeners (advance tid t m) = listeners m ++ [(tid, length (procs m), LExit dl)] /\
    trace (advance tid t m) = extra ++ trace m /\
    milestones (rev extra) = [OSpawn tid (length (procs m)) stop_script [] None].
Proof.
  intros Ht; revert m; induction Ht as [k Hk|msg a k Hk IH]; intros m; cbn [advance].
  - rewrite Hk. cbn. repeat split.
    exists (fun _ => Done VUnit), [OSpawn tid (length (procs m)) stop_script [] None].
    done.
  - destruct (quiet_logDebug tid msg a m) as [Q1 Q2 Q3 Q4 (x & Q5 & Q6) _ _].
    destruct (IH (logDebug tid msg a m)) as (E1 & E2 & E3 & dl & extra & E4 & E5 & E6 & E7).
    rewrite E1, E2, E3, E5, E6, Q1, Q2, Q3, Q4, Q5. repeat split.
    exists dl, (extra ++ x). repeat split; [done|by rewrite app_assoc|].
    by rewrite rev_app_distr, milestones_app, (milestones_rev_nil _ Q6), E7.
Qed.

(** When only silent listeners hear it, an emission that is not an exit
    changes nothing but the record of emissions. *)
Lemma emit_quiet p e m m' :
  Forall (silent_on p e) (listeners m) -> is_exit e = false ->
  step (Emit p e) m = Some m' -> quiet m m'.
Proof.
  intros Hls He Hstep. cbn [step] in Hstep.
  destruct (procs m !! p) as [ex|]; [|discriminate].
  rewrite He, andb_false_r in Hstep. injection Hstep as <-.
  eapply quiet_trans; [|by apply deliver_silent].
  apply quiet_log. by destruct e.
Qed.

Lemma close_inv_quiet ls base k c c' m m' :
  close_inv ls base k c c' m -> quiet m m' -> close_inv ls base k c c' m'.
Proof.
  intros (Hpe & Hls & new & kl & Htr & Hkl & Hms & Hk) [Q1 Q2 Q3 Q4 (x & Q5 & Q6) _ _].
  split; [congruence|]. split; [done|].
  exists (x ++ new), kl. split; [by rewrite Q5, Htr, app_assoc|]. split; [done|].
  split; [by rewrite rev_app_distr, milestones_app, Hms, (milestones_rev_nil _ Q6),
            app_nil_r|].
  unfold outcome_of in *. rewrite Q2, Q3, Q4. exact Hk.
Qed.

Lemma silent_exit_listener_on_data tid q l p e :
  is_exit e = false -> silent_on p e (tid, q, LExit l).
Proof. intros He _ t. by destruct e. Qed.

Lemma silent_other_proc tid q l p e : q <> p -> silent_on p e (tid, q, l).
Proof. intros Hq Hp. by destruct Hq. Qed.

Lemma closing_step ls base c m m' :
  closing ls base m -> step c m = Some m' -> closing ls base m'.
Proof.
  intros (k & x & x' & Hinv) Hstep.
  pose proof Hinv as (Hpe & Hls & new & kl & Htr & Hkl & Hms & Hk).
  destruct c as [i r|p e].
  { cbn [step] in Hstep. by rewrite Hpe in Hstep. }
  assert (Hpass : forall q e0, Forall (silent_on q e0) ls).
  { intros q e0. eapply Forall_impl; [exact Hls|]. intros y. apply passive_silent. }
  destruct (is_exit e) eqn:He.
  2: { (* data and errors are only logged, in every phase *)
    exists k, x, x'. eapply close_inv_quiet; [exact Hinv|].
    eapply emit_quiet; [|exact He|exact Hstep].
    destruct k as [|[|[|[|[|]]]]]; try done.
    - destruct Hk as (-> & _). apply Forall_app. split; [apply Hpass|].
      repeat constructor. by apply silent_exit_listener_on_data.
    - destruct Hk as (dl & _ & -> & _). apply Forall_app. split; [apply Hpass|].
      repeat constructor; by apply silent_exit_listener_on_data.
    - destruct Hk as (dl & _ & -> & _). apply Forall_app. split; [apply Hpass|].
      repeat constructor; by apply silent_exit_listener_on_data. }
  destruct e as [| |code]; try discriminate He. clear He.
  cbn [step is_exit] in Hstep.
  destruct k as [|[|[|[|[|]]]]]; try done.
  - (* the broker exits: the stop script is spawned *)
    destruct Hk as (Hli & (b & Hpr) & Hout).
    rewrite Hpr in Hstep. destruct p as [|[|p]]; try discriminate Hstep.
    cbn in Hstep. destruct b; [discriminate|]. injection Hstep as <-.
    rewrite Hli, deliver_app.
    match goal with |- closing _ _ (deliver _ _ _ (deliver _ _ _ ?m0)) =>
      destruct (deliver_silent 0 (EExit code) ls m0 (Hpass _ _))
        as [Q1 Q2 Q3 Q4 (y & Q5 & Q6) _ _];
      set (m1 := deliver 0 (EExit code) ls m0) in *
    end.
    cbn [deliver foldl fire]. case_decide; [|done].
    destruct (advance_spawns_stop 1 (kl code) m1 (Hkl code))
      as (E1 & E2 & E3 & dl & extra & E4 & E5 & E6 & E7).
    cbn in Q1, Q2, Q3, Q4, Q5.
    exists 2, code, x'. split; [by rewrite E1, Q1|]. split; [done|].
    exists (extra ++ y ++ OEmit 0 (EExit code) :: new), kl.
    split; [by rewrite E6, Q5, Htr, <- !app_assoc|]. split; [done|]. split.
    { rewrite !rev_app_distr. cbn [rev]. rewrite !milestones_app, Hms, E7.
      rewrite (milestones_rev_nil _ Q6), Q4. cbn. done. }
    exists dl. split; [done|]. rewrite E5, E3, Q2, Q4, Hli, <- app_assoc. cbn.
    repeat split. unfold outcome_of. by rewrite E2, Q3.
  - (* the stop script exits: [close] resolves *)
    destruct Hk as (dl & Hdl & Hli & Hpr & Hout).
    rewrite Hpr in Hstep. destruct p as [|[|p]]; cbn in Hstep;
      try discriminate Hstep.
    injection Hstep as <-.
    rewrite Hli.
    change (ls ++ [(1, 0, LExit kl); (1, 1, LExit dl)])
      with (ls ++ [(1, 0, LExit kl)] ++ [(1, 1, LExit dl)]).
    rewrite app_assoc, deliver_app.
    match goal with |- closing _ _ (deliver _ _ _ (deliver _ _ ?l0 ?m0)) =>
      assert (Hs : Forall (silent_on 1 (EExit code)) l0)
        by (apply Forall_app; split; [apply Hpass|];
            repeat constructor; by apply silent_other_proc);
      destruct (deliver_silent 1 (EExit code) l0 m0 Hs)
        as [Q1 Q2 Q3 Q4 (y & Q5 & Q6) _ _];
      set (m1 := deliver 1 (EExit code) l0 m0) in *
    end.
    cbn [deliver foldl fire]. case_decide; [|done].
    rewrite Hdl. cbn [advance]. cbn in Q1, Q2, Q3, Q4, Q5.
    unfold m_settle. unfold outcome_of in *. rewrite Q3, Hout. cbn.
    exists 4, x, code. split; [by rewrite Q1|]. split; [done|].
    exists (OSettle 1 (Resolved VUnit) :: y ++ OEmit 1 (EExit code) :: new), kl.
    split; [rewrite Q5, Htr; cbn [app]; by rewrite <- app_assoc|].
    split; [done|]. split.
    { cbn [rev]. rewrite !rev_app_distr. cbn [rev].
      rewrite !milestones_app, Hms, (milestones_rev_nil _ Q6). cbn. done. }
    exists dl. split; [done|]. cbn. rewrite Q2, Q4, Hli.
    repeat split. by apply assoc_outcome_snoc.
  - (* both children have exited: no exit is enabled any more *)
    destruct Hk as (dl & Hdl & Hli & Hpr & Hout).
    rewrite Hpr in Hstep. by destruct p as [|[|p]].
Qed.

Lemma closing_run ls base s m m' :
  closing ls base m -> run s m = Some m' -> closing ls base m'.
Proof. apply (run_invariant (closing ls base)), closing_step. Qed.

(** [close] on the handle of a started broker begins the shutdown. *)
Lemma close_begins ports acts m :
  post_spawn (handle_of ports 0) acts m ->
  outcome_of 0 m = Some (Resolved (VHandle (handle_of ports 0))) ->
  closing (listeners m) (trace m) (invoke 1 (close_root (handle_of ports 0)) m).
Proof.
  intros (Hls & Hpr & Hcase) Hout.
  destruct Hcase as [(ms & cb & _ & _ & Hs & _)|(Hpe & Hs & _)].
  { unfold outcome_of in Hout. by rewrite Hs in Hout. }
  destruct (procs m) as [|b [|]] eqn:Hprocs; try discriminate Hpr.
  exists 0, None, None. split; [exact Hpe|]. split; [exact Hls|].
  unfold invoke, close_root, handle_of, close, killProcess, stopKafkaServer.
  unfold mbind, Task_bind. cbn [bind advance m_listen m_log pending listeners
    heap procs trace settled].
  eexists [_], _. split; [reflexivity|].
  split; [|split; [reflexivity|]; split; [reflexivity|]; split; [by exists b|]].
  - intros x. repeat constructor.
  - unfold outcome_of. cbn. by rewrite Hs.
Qed.

(** C4: [close] first sends [SIGKILL] to the child; the stop script is
    spawned only once the exit of the child has been observed, and [close]
    resolves only once the stop script has exited in its turn.  Whatever the
    children emit in between, the history since the call is a prefix of
    that sequence, and it starts with the kill. *)
Theorem C4_close_kills_then_waits_then_stops s1 m1 h s2 m2 :
  run s1 (start [factory]) = Some m1 ->
  outcome_of 0 m1 = Some (Resolved (VHandle h)) ->
  run s2 (invoke 1 (close_root h) m1) = Some m2 ->
  exists new k c c',
    trace m2 = new ++ trace m1 /\
    milestones (rev new) = take (S k) (shutdown_sequence c c') /\
    (outcome_of 1 m2 <> None -> milestones (rev new) = shutdown_sequence c c').
Proof.
  intros H1 Hout H2.
  destruct (factory_reach s1 m1 H1) as (st & _ & Ho & Hc).
  rewrite Hout in Ho.
  destruct st; try discriminate Ho. injection Ho as ->.
  cbn [stage_control] in Hc.
  pose proof (close_begins _ _ _ Hc Hout) as Hb.
  destruct (closing_run _ _ _ _ _ Hb H2)
    as (k & c & c' & _ & _ & new & kl & Htr & _ & Hms & Hk).
  exists new, k, c, c'. split; [exact Htr|]. split; [exact Hms|].
  intros Hsome. rewrite Hms.
  destruct k as [|[|[|[|[|]]]]]; try done.
  - by destruct Hk as (_ & _ & Hnone).
  - by destruct Hk as (dl & _ & _ & _ & Hnone).
Qed.

(** ** Ownership of the managers *)

Lemma owned_intro m pe li he pr tr se :
  owned m ->
  (forall tid t, (tid, t) ∈ pe -> confined tid t) ->
  (forall tid p l e t, (tid, p, l) ∈ li -> fire l e = Some t -> confined tid t) ->
  Forall (fun o => takenPorts o = []) he ->
  length he = length (heap m) ->
  (exists new, tr = new ++ trace m /\ Forall ok_obs new /\ omap new_of new = []) ->
  owned (MkMachine pe li he pr tr se).
Proof.
  intros (_ & _ & _ & H4 & H5 & H6) Hpe Hli Hhe Hlen (new & -> & Hnew & Hnone).
  split; [exact Hpe|]. split; [exact Hli|]. split; [exact Hhe|].
  cbn [trace heap]. split; [|split].
  - intros o tid this [Ho|Ho]%elem_of_app; [|by eauto].
    rewrite Forall_forall in Hnew. apply (Hnew o Ho).
  - intros o [Ho|Ho]%elem_of_app; [|by eauto].
    rewrite Forall_forall in Hnew. apply (Hnew o Ho).
  - unfold constructed, history in *. cbn [trace].
    rewrite rev_app_distr, omap_app, Hlen, H6.
    assert (Hrev : omap new_of (rev new) = []).
    { clear -Hnone. induction new as [|o new IH]; [done|].
      cbn in Hnone. cbn [rev]. rewrite omap_app. cbn.
      destruct (new_of o); [discriminate|]. rewrite IH; done. }
    by rewrite Hrev, app_nil_r.
Qed.

Ltac owned_fields Hm :=
  eapply (owned_intro _ _ _ _ _ _ _ Hm); cbn [pending listeners heap procs trace settled];
  try apply Hm.

Ltac continue_with IH :=
  match goal with
  | |- owned (advance _ (_ ?x) ?m0) /\ _ => apply (IH x m0)
  | |- owned (advance _ _ ?m0) /\ _ => apply (IH m0)
  end.

Ltac waiting Hm :=
  split; [|done]; unfold m_wait; owned_fields Hm;
  [ intros tid' t' [Hin|Hin]%elem_of_app;
    [ destruct Hm as (Hpe & _); by apply Hpe
    | apply list_elem_of_singleton in Hin; injection Hin as -> ->; by constructor ]
  | done
  | eexists [_]; split; [reflexivity|]; repeat constructor; done ].

(** A confined task keeps the managers owned and constructs none. *)
Lemma advance_confined tid t m :
  confined tid t -> owned m ->
  owned (advance tid t m) /\ length (heap (advance tid t m)) = length (heap m).
Proof.
  intros Ht; revert m.
  induction Ht; intros m Hm; cbn [advance].
  - (* Done *)
    unfold m_settle. destruct (outcome_of tid m); [done|]. split; [|done].
    owned_fields Hm; [done|]. exists [OSettle tid (Resolved v)]. repeat constructor; done.
  - unfold m_settle. destruct (outcome_of tid m); [done|]. split; [|done].
    owned_fields Hm; [done|]. exists [OSettle tid (Rejected e)]. repeat constructor; done.
  - done.
  - (* DecoderWrite *)
    destruct (heap m !! tid) as [o|] eqn:Ho; [|done].
    destruct (decoder_write (decoder o) data) as [text held].
    match goal with |- context [advance tid (k text) ?m0] =>
      assert (Hm0 : owned m0 /\ length (heap m0) = length (heap m))
    end.
    { split; [|cbn; apply length_insert].
      owned_fields Hm.
      - apply Forall_insert; [apply Hm|]. cbn.
        destruct Hm as (_ & _ & Hh & _). rewrite Forall_forall in Hh.
        apply Hh. by eapply list_elem_of_lookup_2.
      - apply length_insert.
      - exists [ODecoderWrite tid tid data]. repeat constructor; cbn; congruence. }
    destruct Hm0 as [Hm0 Hl0]. destruct (H0 text _ Hm0) as [? Hl]. by rewrite Hl.
  - (* Host *)
    continue_with IHHt. owned_fields Hm; [done|]. exists [OHost tid c].
    repeat constructor; done.
  - (* LogDebug *)
    continue_with IHHt. unfold logDebug. owned_fields Hm; [done|].
    destruct verbose; [exists [OHost tid (ConsoleLog msg a)]|exists []];
      repeat constructor; done.
  - (* Spawn *)
    continue_with H0. owned_fields Hm; [done|].
    exists [OSpawn tid (length (procs m)) script args opts]. repeat constructor; done.
  - (* OnData *)
    continue_with IHHt. owned_fields Hm; [|done|by exists []].
    intros tid' p' l' e t [Hin|Hin]%elem_of_app Hf;
      [destruct Hm as (_ & Hli & _); by eapply Hli|].
    apply list_elem_of_singleton in Hin. injection Hin as -> -> ->.
    destruct e as [s' d| |]; try discriminate Hf. cbn in Hf.
    case_decide; [|discriminate]. injection Hf as <-. apply H.
  - (* OnError *)
    continue_with IHHt. owned_fields Hm; [|done|by exists []].
    intros tid' p' l' e' t [Hin|Hin]%elem_of_app Hf;
      [destruct Hm as (_ & Hli & _); by eapply Hli|].
    apply list_elem_of_singleton in Hin. injection Hin as -> -> ->.
    destruct e' as [s' d| |]; try discriminate Hf. injection Hf as <-. apply H.
  - (* OnExit *)
    continue_with IHHt. owned_fields Hm; [|done|by exists []].
    intros tid' p' l' e' t [Hin|Hin]%elem_of_app Hf;
      [destruct Hm as (_ & Hli & _); by eapply Hli|].
    apply list_elem_of_singleton in Hin. injection Hin as -> -> ->.
    destruct e' as [s' d| |]; try discriminate Hf. injection Hf as <-. apply H.
  - waiting Hm.
  - waiting Hm.
  - waiting Hm.
  - waiting Hm.
  - waiting Hm.
  - waiting Hm.
  - waiting Hm.
Qed.

Lemma complete_confined tid t r t' :
  confined tid t -> complete t r = Some t' -> confined tid t'.
Proof.
  intros Ht Hc. destruct Ht; destruct r; try discriminate Hc;
    injection Hc as <-; auto.
Qed.

Lemma deliver_owned p e ls m :
  (forall tid q l e0 t, (tid, q, l) ∈ ls -> fire l e0 = Some t -> confined tid t) ->
  owned m ->
  owned (deliver p e ls m) /\ length (heap (deliver p e ls m)) = length (heap m).
Proof.
  revert m; induction ls as [|[[tid q] l] ls IH]; intros m Hls Hm; [done|].
  cbn [deliver foldl].
  assert (Hrest : forall tid q l e0 t,
             (tid, q, l) ∈ ls -> fire l e0 = Some t -> confined tid t).
  { intros ? ? ? ? ? Hin. eapply Hls. by right. }
  case_decide; [|by apply IH].
  destruct (fire l e) as [t|] eqn:Hf; [|by apply IH].
  destruct (advance_confined tid t m) as [Ho Hl]; [|done|].
  { eapply Hls; [by left|exact Hf]. }
  destruct (IH _ Hrest Ho) as [Ho' Hl']. split; [done|]. by rewrite <- Hl.
Qed.

Lemma owned_step c m m' :
  owned m -> step c m = Some m' -> owned m' /\ length (heap m') = length (heap m).
Proof.
  intros Hm Hstep. destruct c as [i r|p e]; cbn [step] in Hstep.
  - destruct (pending m !! i) as [[tid t]|] eqn:Hi; [|discriminate].
    destruct (complete t r) as [t'|] eqn:Hc; [|discriminate]. injection Hstep as <-.
    assert (Ht : confined tid t).
    { destruct Hm as (Hpe & _). apply Hpe. by eapply list_elem_of_lookup_2. }
    match goal with |- owned (advance _ _ ?m0) /\ _ =>
      apply (advance_confined tid t' m0)
    end; [by eapply complete_confined|].
    unfold m_log, m_pending. owned_fields Hm; [|done|].
    + intros tid' t0 Hin. destruct Hm as (Hpe & _). apply Hpe.
      eapply list_elem_of_delete_inv, Hin.
    + eexists [_]; split; [reflexivity|]; repeat constructor; done.
  - destruct (procs m !! p) as [ex|]; [|discriminate].
    destruct (ex && is_exit e)%bool; [discriminate|]. injection Hstep as <-.
    match goal with |- owned (deliver _ _ _ ?m0) /\ _ =>
      destruct (deliver_owned p e (listeners m) m0) as [Ho Hl]
    end; [apply Hm| |split; [done|rewrite Hl; by destruct (is_exit e)]].
    destruct (is_exit e); unfold m_log, m_procs; owned_fields Hm; try done;
      eexists [_]; split; try reflexivity; repeat constructor; done.
Qed.


Lemma owned_run script m m' :
  owned m -> run script m = Some m' -> owned m' /\ length (heap m') = length (heap m).
Proof.
  revert m; induction script as [|c script IH]; intros m Hm Hrun.
  - cbn [run] in Hrun. injection Hrun as <-. done.
  - apply run_cons in Hrun as (m1 & Hs & Hrun).
    destruct (owned_step _ _ _ Hm Hs) as [H1 Hl1].
    destruct (IH _ H1 Hrun) as [H2 Hl2]. split; [done|]. by rewrite Hl2.
Qed.

Ltac confine :=
  repeat (intros;
    repeat match goal with
      | e : option JsError |- _ => destruct e
      | c : option Z |- _ => destruct c
      | |- context [bool_decide (?x = ?y)] => destruct (bool_decide (x = y))
      end;
    match goal with
    | |- confined ?r ?t => let t' := eval hnf in t in change (confined r t')
    end;
    constructor).

Lemma factory_fresh : fresh_manager factory.
Proof.
  eexists _, _. split; [reflexivity|]. split; [reflexivity|].
  unfold startKafkaServer, startKafkaProcess, createKafkaConfig, initializeStorage,
    createTempDirectory, allocatePorts, killProcess, stopKafkaServer, waitFor,
    setupConsoleOverrides.
  unfold mbind, mret, Task_bind, Task_ret. confine.
Qed.

Lemma lifecycle_fresh : fresh_manager lifecycle.
Proof.
  eexists _, _. split; [reflexivity|]. split; [reflexivity|].
  unfold startKafkaServer, startKafkaProcess, createKafkaConfig, initializeStorage,
    createTempDirectory, allocatePorts, killProcess, stopKafkaServer, waitFor,
    setupConsoleOverrides.
  unfold mbind, mret, Task_bind, Task_ret. confine.
Qed.

Lemma owned_init : owned init.
Proof.
  unfold owned, init; cbn. repeat split; try done; intros; by inversion H.
Qed.

Lemma owned_new tid init0 m :
  owned m -> length (heap m) = tid -> takenPorts init0 = [] ->
  owned (m_log (ONew tid (length (heap m))) (m_heap (heap m ++ [init0]) m)).
Proof.
  intros (H1 & H2 & H3 & H4 & H5 & H6) Hl Hi.
  unfold owned, m_log, m_heap; cbn [pending listeners heap procs trace settled].
  split; [done|]. split; [done|]. split; [|split; [|split]].
  - apply Forall_app; split; [done|]. by repeat constructor.
  - intros o tid' this [->|Ho]%elem_of_cons Ha; [|by eauto].
    cbn in Ha. congruence.
  - intros o [->|Ho]%elem_of_cons; [done|by eauto].
  - unfold constructed, history in *. cbn [trace rev].
    rewrite omap_app, H6, length_app, Hl. cbn.
    rewrite Nat.add_1_r, seq_S, fmap_app. done.
Qed.

Lemma owned_start_from roots tid m :
  Forall fresh_manager roots -> owned m -> length (heap m) = tid ->
  owned (start_from tid roots m) /\
  length (heap (start_from tid roots m)) = tid + length roots.
Proof.
  revert tid m; induction roots as [|t roots IH]; intros tid m Hr Hm Hl.
  - cbn. split; [done|lia].
  - apply Forall_cons in Hr as [(init0 & k & -> & Hi & Hk) Hr]. subst tid.
    cbn [start_from advance length].
    match goal with |- owned (start_from _ _ (advance ?i ?t0 ?m0)) /\ _ =>
      destruct (advance_confined i t0 m0) as [Ho Hl0]
    end; [apply Hk|by apply owned_new|].
    match type of Hl0 with _ = ?n =>
      assert (Hn : n = S (length (heap m)))
    end.
    { unfold m_log, m_heap; cbn [heap]. rewrite length_app; cbn; lia. }
    rewrite Hn in Hl0.
    destruct (IH _ _ Hr Ho Hl0) as [Ho' Hl']. split; [done|]. rewrite Hl'. lia.
Qed.

Lemma owned_reach roots script m :
  Forall (fun t => t = factory \/ t = lifecycle) roots ->
  run script (start roots) = Some m ->
  owned m /\ length (heap m) = length roots.
Proof.
  intros Hr Hrun.
  destruct (owned_start_from roots 0 init) as [Ho Hl];
    [|apply owned_init|done|].
  { eapply Forall_impl; [exact Hr|].
    intros t [->| ->]; [apply factory_fresh|apply lifecycle_fresh]. }
  destruct (owned_run _ _ _ Ho Hrun) as [Ho' Hl']. split; [done|].
  rewrite Hl'. exact Hl.
Qed.

(** C9: whatever invocations of the exported factory (awaited, or awaited
    and then closed) run in a process, in whatever order the host answers
    them, the [takenPorts] of every manager is empty in every reachable
    state, and the history holds no read ([includes]) and no write ([push])
    of a [takenPorts]: nothing appends to it and [allocatePorts] never
    consults it. *)
Theorem C9_takenPorts_stays_empty roots script m :
  Forall (fun t => t = factory \/ t = lifecycle) roots ->
  run script (start roots) = Some m ->
  Forall (fun o => takenPorts o = []) (heap m) /\
  Forall (fun o => touches_takenPorts o = false) (history m).
Proof.
  intros Hr Hrun. destruct (owned_reach _ _ _ Hr Hrun) as [(_ & _ & Hh & _ & Ht & _) _].
  split; [done|]. apply Forall_forall. intros o Ho. apply Ht.
  by apply elem_history.
Qed.

(** C10: every invocation of the exported factory constructs exactly one
    manager of its own (invocation [i] constructs the object [i], so there
    are as many managers as invocations), and every access of an invocation
    to a field of a manager, its decoder or its [takenPorts], is to the
    manager it constructed: concurrent invocations share no manager. *)
Theorem C10_each_invocation_owns_its_manager roots script m :
  Forall (fun t => t = factory \/ t = lifecycle) roots ->
  run script (start roots) = Some m ->
  constructed m = (fun i => (i, i)) <$> seq 0 (length roots) /\
  length (heap m) = length roots /\
  forall o tid this, o ∈ history m -> access_of o = Some (tid, this) -> this = tid.
Proof.
  intros Hr Hrun.
  destruct (owned_reach _ _ _ Hr Hrun) as [(_ & _ & _ & Ha & _ & Hc) Hl].
  split; [by rewrite Hc, Hl|]. split; [done|].
  intros o tid this Ho. apply Ha. by apply elem_history.
Qed.

(** ** Further properties of the module *)

(** *** The escaping of the log directory *)

(** X1: a workspace path without a backslash, as on a POSIX host, is
    written to [log.dirs] as it is. *)
Theorem escape_backslashes_plain s :
  has_backslash s = false -> escape_backslashes s = s.
Proof.
  induction s as [|c s IH]; [done|]. cbn.
  destruct (Ascii.eqb c _); [done|]. cbn. intros H. by rewrite IH.
Qed.

(** X2: the escaping loses nothing: two workspace paths with the same
    [log.dirs] value are the same path. *)
Theorem escape_backslashes_inj s1 s2 :
  escape_backslashes s1 = escape_backslashes s2 -> s1 = s2.
Proof.
  revert s2; induction s1 as [|c1 s1 IH]; intros [|c2 s2] H.
  - done.
  - cbn in H. by destruct (Ascii.eqb c2 _).
  - cbn in H. by destruct (Ascii.eqb c1 _).
  - cbn in H.
    destruct (Ascii.eqb c1 _) eqn:E1, (Ascii.eqb c2 _) eqn:E2.
    + injection H as -> _ H. by rewrite (IH _ H).
    + injection H as -> H. apply Ascii.eqb_eq in E1 as ->.
      by rewrite Ascii.eqb_refl in E2.
    + injection H as -> H. apply Ascii.eqb_eq in E2 as ->.
      by rewrite Ascii.eqb_refl in E1.
    + injection H as -> H. by rewrite (IH _ H).
Qed.

(** *** The small operations *)

Ltac unfold_roots H :=
  unfold wait_root, dir_root, ports_root, waitFor, createTempDirectory, allocatePorts in H;
  unfold mbind, Task_bind in H.

Ltac history_lists :=
  cbn [outcome_of assoc_outcome settled Nat.eqb]; unfold calls, history;
  cbn [trace rev app].

(** X3: [waitFor(ms)] arms one timer, of [ms] milliseconds, and nothing
    else; its promise resolves, with no value, exactly when that timer has
    fired, and it is never rejected. *)
Theorem waitFor_resolves_when_timer_fires this ms script m :
  run script (start [wait_root this ms]) = Some m ->
  calls m = [CSetTimeout ms] /\
  (outcome_of 0 m = Some (Resolved VUnit) <-> OReturn 0 RTimeout ∈ history m) /\
  (forall o, outcome_of 0 m = Some o -> o = Resolved VUnit).
Proof.
  intros H. unfold_roots H.
  destruct verbose eqn:Hv.
  all: exec H.
  all: answer H.
  all: try (exec H; dead H).
  all: history_lists.
  all: (split; [reflexivity|]); split;
    [split; [intros Heq; try discriminate Heq; listed
            |intros Hin; in_list Hin; reflexivity]
    |intros o Heq; try discriminate Heq; by injection Heq as <-].
Qed.

(** X4: [createTempDirectory(prefix)] asks [tmp.dir] once, for a directory
    with that prefix that is removed on exit even when it is not empty; its
    promise resolves with the path [tmp.dir] reports and rejects with the
    error it reports. *)
Theorem createTempDirectory_one_request this prefix script m :
  run script (start [dir_root this prefix]) = Some m ->
  calls m = [CTmpDir prefix true] /\
  (forall v, outcome_of 0 m = Some (Resolved v) <->
             exists path, v = VString path /\ OReturn 0 (RDir None path) ∈ history m) /\
  (forall e, outcome_of 0 m = Some (Rejected e) <->
             exists path, OReturn 0 (RDir (Some e) path) ∈ history m).
Proof.
  intros H. unfold_roots H. exec H.
  answer H.
  2: destruct err as [e|]; exec H; dead H.
  all: history_lists.
  all: (split; [reflexivity|]); split; [intros v|intros e'];
    (split;
     [ intros Heq; try discriminate Heq; simplify_eq; eexists;
       try (split; [reflexivity|]); listed
     | intros Hex;
       first [ destruct Hex as (? & -> & Hin) | destruct Hex as (? & Hin) ];
       in_list Hin; simplify_eq; reflexivity ]).
Qed.

(** X5: [allocatePorts()] asks portfinder once, for two ports; its promise
    rejects with the error portfinder reports, and otherwise resolves with
    the first port as client port and the second as controller port, each
    undefined when portfinder reported fewer. *)
Theorem allocatePorts_takes_the_first_two this script m :
  run script (start [ports_root this]) = Some m ->
  calls m = [CGetPorts 2] /\
  (forall v, outcome_of 0 m = Some (Resolved v) <->
             exists ports, v = VPorts (MkPorts (ports !! 0%nat) (ports !! 1%nat)) /\
                           OReturn 0 (RPorts None ports) ∈ history m) /\
  (forall e, outcome_of 0 m = Some (Rejected e) <->
             exists ports, OReturn 0 (RPorts (Some e) ports) ∈ history m).
Proof.
  intros H. unfold_roots H. exec H.
  answer H.
  2: destruct err as [e|]; exec H; dead H.
  all: history_lists.
  all: (split; [reflexivity|]); split; [intros v|intros e'];
    (split;
     [ intros Heq; try discriminate Heq; simplify_eq; eexists;
       try (split; [reflexivity|]); listed
     | intros Hex;
       first [ destruct Hex as (? & -> & Hin) | destruct Hex as (? & Hin) ];
       in_list Hin; simplify_eq; reflexivity ]).
Qed.

(** X6: [createKafkaConfig] rejects only with the error of the editor; once
    the editor is there it resolves with the name of the config file as soon
    as [save] calls back, whether [save] reports an error or not. *)
Theorem createKafkaConfig_ignores_the_save_error this dir cp kp script m :
  run script (start [config_root this dir cp kp]) = Some m ->
  (forall v, outcome_of 0 m = Some (Resolved v) <->
             v = VString (config_file dir) /\
             exists err, OReturn 0 (RSaved err) ∈ history m) /\
  (forall e, outcome_of 0 m = Some (Rejected e) <->
             exists props, OReturn 0 (REditor (Some e) props) ∈ history m).
Proof.
  intros H. unfold_methods H.
  destruct verbose eqn:Hv.
  all: exec H.
  all: answer H.
  all: try (destruct err as [e|]; exec H; [dead H|answer H; [|exec H; dead H]]).
  all: history_lists.
  all: split; [intros v|intros e'];
    (split;
     [ intros Heq; try discriminate Heq; simplify_eq;
       try (split; [reflexivity|]); eexists; listed
     | intros Hex;
       first [ destruct Hex as (-> & ? & Hin) | destruct Hex as (? & Hin) ];
       in_list Hin; simplify_eq; reflexivity ]).
Qed.

(** *** The factory *)

(** X7: once the child has been spawned, the start settles with the timer
    and with nothing else: whatever the child writes or emits, and whether
    or not it has exited, the promise is never rejected, and it is resolved
    with a handle exactly when the startup interval has elapsed. *)
Theorem start_settles_with_the_timer script m tid p s args opts :
  run script (start [factory]) = Some m ->
  OSpawn tid p s args opts ∈ history m ->
  (forall e, outcome_of 0 m <> Some (Rejected e)) /\
  ((exists h, outcome_of 0 m = Some (Resolved (VHandle h)))
   <-> OReturn 0 RTimeout ∈ history m).
Proof.
  intros Hrun Hin.
  destruct (factory_reach script m Hrun) as (st & Hh & Ho & _).
  apply action_in_history in Hin; [|done].
  assert (Hsub : forall o, o ∈ stage_history st -> o ∈ history m).
  { intros o Hin'. rewrite <- Hh in Hin'. by apply elem_actions in Hin' as [? _]. }
  assert (Hact : OReturn 0 RTimeout ∈ history m -> OReturn 0 RTimeout ∈ stage_history st).
  { intros Ht. rewrite <- Hh. by apply action_in_history. }
  rewrite Hh in Hin. rewrite Ho. clear Hh Ho Hrun.
  destruct st; stage_lists; in_list Hin; cbn [stage_outcome].
  - split; [done|]. split; [by intros [? ?]|].
    intros Ht%Hact. in_list Ht.
  - split; [done|]. split; [intros _; apply Hsub; listed|eauto].
Qed.

(** X8: the client port of the handle is the port the broker was configured
    with: it is the first port portfinder answered, and the one config that
    was saved for this instance has it, in decimal, in [listeners] and in
    [advertised.listeners], next to the second port as the controller's. *)
Theorem handle_port_is_the_configured_port script m h :
  run script (start [factory]) = Some m ->
  outcome_of 0 m = Some (Resolved (VHandle h)) ->
  exists ports dir props,
    OReturn 0 (RPorts None ports) ∈ history m /\
    OCall 0 (CSave (config_file dir) props) ∈ history m /\
    (forall file' props', OCall 0 (CSave file' props') ∈ history m ->
                          file' = config_file dir /\ props' = props) /\
    kafkaPort h = ports !! 0%nat /\
    props !! "listeners"
      = Some ("PLAINTEXT://localhost:" +:+ from_option pretty "undefined" (kafkaPort h)
                +:+ ",CONTROLLER://localhost:"
                +:+ from_option pretty "undefined" (ports !! 1%nat)) /\
    props !! "advertised.listeners"
      = Some ("PLAINTEXT://localhost:" +:+ from_option pretty "undefined" (kafkaPort h)
                +:+ ",CONTROLLER://localhost:"
                +:+ from_option pretty "undefined" (ports !! 1%nat)) /\
    props !! "controller.quorum.bootstrap.servers"
      = Some ("localhost:" +:+ from_option pretty "undefined" (ports !! 1%nat)).
Proof.
  intros Hrun Hout.
  destruct (factory_reach script m Hrun) as (st & Hh & Ho & _).
  assert (Hsub : forall o, o ∈ stage_history st -> o ∈ history m).
  { intros o Hin'. rewrite <- Hh in Hin'. by apply elem_actions in Hin' as [? _]. }
  assert (Hact : forall o, is_action o = true -> o ∈ history m -> o ∈ stage_history st).
  { intros o Ha Hin'. rewrite <- Hh. by apply action_in_history. }
  rewrite Hout in Ho. destruct st; try discriminate Ho. injection Ho as ->.
  exists (a_ports a), (a_dir a), (instance_props (a_dir a) (a_ports a) (a_tmpl a)).
  split; [apply Hsub; stage_lists; listed|].
  split; [apply Hsub; stage_lists; listed|].
  split.
  { intros file' props' Hin%Hact; [|done]. stage_lists. in_list Hin.
    by injection Hin as -> ->. }
  split; [reflexivity|]. unfold instance_props, listeners_value, handle_of.
  cbn [kafkaPort]. rewrite !template_port_text.
  repeat (split;
          [repeat (rewrite lookup_insert_ne by discriminate); apply lookup_insert_eq|]).
  repeat (rewrite lookup_insert_ne by discriminate). apply lookup_insert_eq.
Qed.

(** X9: the ports portfinder answers are not validated.  When it answers
    with fewer than two, the pipeline goes on with the missing port
    undefined, and the config it saves names the controller as
    [localhost:undefined]. *)
Theorem missing_port_is_written_as_undefined script m ports file props :
  run script (start [factory]) = Some m ->
  OReturn 0 (RPorts None ports) ∈ history m ->
  OCall 0 (CSave file props) ∈ history m ->
  ports !! 1%nat = None ->
  props !! "controller.quorum.bootstrap.servers" = Some "localhost:undefined" /\
  props !! "listeners"
    = Some ("PLAINTEXT://localhost:" +:+ template_port (ports !! 0%nat)
              +:+ ",CONTROLLER://localhost:undefined").
Proof.
  intros Hrun Hp Hs Hnone.
  destruct (factory_reach script m Hrun) as (st & Hh & _ & _).
  apply action_in_history in Hp; [|done]. apply action_in_history in Hs; [|done].
  rewrite Hh in Hp, Hs. clear Hh Hrun.
  destruct st; stage_lists; in_list Hp; in_list Hs; simplify_eq.
  all: unfold instance_props, listeners_value; rewrite Hnone; cbn [template_port].
  all: split; repeat (rewrite lookup_insert_ne by discriminate);
    by rewrite lookup_insert_eq.
Qed.

(** X10: the provisioning is a sequence: the asynchronous calls of an
    invocation are, in this order, the two ports, the workspace, the editor
    of the template, the save of the config, the format of the storage and
    the startup timer; each is issued once, and none before the one before
    it was answered, so the calls issued so far are a prefix of that list. *)
Theorem pipeline_is_sequential script m :
  run script (start [factory]) = Some m ->
  exists ports dir tmpl,
    calls m `prefix_of`
      [CGetPorts 2; CTmpDir "kafka-" true; CCreateEditor KAFKA_PROPERTIES;
       CSave (config_file dir) (instance_props dir ports tmpl);
       CExec (format_command (config_file dir)); CSetTimeout WAIT_TIME].
Proof.
  intros Hrun.
  destruct (factory_reach script m Hrun) as (st & Hh & _ & _).
  unfold calls. rewrite <- calls_actions, Hh. clear Hh Hrun.
  destruct st as [|e ports|ports|ports e path|ports dir|ports dir e props
                 |ports dir tmpl|ports dir tmpl serr|ports dir tmpl serr e out errout
                 |[ports dir tmpl serr out errout]|[ports dir tmpl serr out errout]].
  1-2: exists [], EmptyString, (∅ : Props).
  3-4: exists ports, EmptyString, (∅ : Props).
  5-6: exists ports, dir, (∅ : Props).
  7-11: exists ports, dir, tmpl.
  all: stage_lists; cbn; by eexists.
Qed.

(** X11: the broker is never started on storage that was not formatted: the
    child is spawned only after [exec] has reported the format command as
    done without an error, and it is the first child of the invocation. *)
Theorem spawn_follows_the_format script m tid p s args opts :
  run script (start [factory]) = Some m ->
  OSpawn tid p s args opts ∈ history m ->
  tid = 0%nat /\ p = 0%nat /\
  exists out errout, OReturn 0 (RExec None out errout) ∈ history m.
Proof.
  intros Hrun Hin.
  destruct (factory_reach script m Hrun) as (st & Hh & _ & _).
  apply action_in_history in Hin; [|done].
  assert (Hsub : forall o, o ∈ stage_history st -> o ∈ history m).
  { intros o Hin'. rewrite <- Hh in Hin'. by apply elem_actions in Hin' as [? _]. }
  rewrite Hh in Hin. clear Hh Hrun.
  destruct st; stage_lists; in_list Hin; injection Hin as -> -> -> -> ->.
  all: split; [done|]; split; [done|].
  all: exists (a_stdout a), (a_stderr a); apply Hsub; listed.
Qed.

(** *** Shutdown *)

(** The shutdown begins in its first phase, and spawns nothing. *)
Lemma close_begins_waiting ports acts m :
  post_spawn (handle_of ports 0) acts m ->
  outcome_of 0 m = Some (Resolved (VHandle (handle_of ports 0))) ->
  close_inv (listeners m) (trace m) 0 None None
    (invoke 1 (close_root (handle_of ports 0)) m) /\
  procs (invoke 1 (close_root (handle_of ports 0)) m) = procs m.
Proof.
  intros (Hls & Hpr & Hcase) Hout.
  destruct Hcase as [(ms & cb & _ & _ & Hs & _)|(Hpe & Hs & _)].
  { unfold outcome_of in Hout. by rewrite Hs in Hout. }
  destruct (procs m) as [|b [|]] eqn:Hprocs; try discriminate Hpr.
  unfold invoke, close_root, handle_of, close, killProcess, stopKafkaServer.
  unfold mbind, Task_bind. cbn [bind advance m_listen m_log pending listeners
    heap procs trace settled].
  split; [|exact Hprocs].
  split; [exact Hpe|]. split; [exact Hls|].
  eexists [_], _. split; [reflexivity|].
  split; [|split; [reflexivity|]; split; [reflexivity|]; split; [by exists b|]].
  - intros x. repeat constructor.
  - unfold outcome_of. cbn. by rewrite Hs.
Qed.

(** With the broker gone already, the shutdown stays in its first phase. *)
Lemma waiting_in_vain_step ls base c m m' :
  (exists x x', close_inv ls base 0 x x' m) /\ procs m = [true] ->
  step c m = Some m' ->
  (exists x x', close_inv ls base 0 x x' m') /\ procs m' = [true].
Proof.
  intros [(x & x' & Hinv) Hpr] Hstep.
  pose proof Hinv as (Hpe & Hls & new & kl & Htr & Hkl & Hms & Hli & _ & Hout).
  destruct c as [i r|p e].
  { cbn [step] in Hstep. by rewrite Hpe in Hstep. }
  destruct (is_exit e) eqn:He.
  { cbn [step] in Hstep. rewrite Hpr, He in Hstep. by destruct p as [|[|p]]. }
  assert (Hq : quiet m m').
  { eapply emit_quiet; [|exact He|exact Hstep].
    rewrite Hli. apply Forall_app. split.
    - eapply Forall_impl; [exact Hls|]. intros y. apply passive_silent.
    - repeat constructor. by apply silent_exit_listener_on_data. }
  split; [|by rewrite (q_procs _ _ Hq)].
  exists x, x'. by eapply close_inv_quiet.
Qed.

(** X12: [close] is never rejected; it resolves only when both the broker
    and the stop script have exited; and it leaves no call in flight, so no
    timer bounds the shutdown. *)
Theorem close_resolves_after_both_exits s1 m1 h s2 m2 :
  run s1 (start [factory]) = Some m1 ->
  outcome_of 0 m1 = Some (Resolved (VHandle h)) ->
  run s2 (invoke 1 (close_root h) m1) = Some m2 ->
  pending m2 = [] /\
  (forall e, outcome_of 1 m2 <> Some (Rejected e)) /\
  (outcome_of 1 m2 <> None -> procs m2 = [true; true]).
Proof.
  intros H1 Hout H2.
  destruct (factory_reach s1 m1 H1) as (st & _ & Ho & Hc).
  rewrite Hout in Ho.
  destruct st; try discriminate Ho. injection Ho as ->.
  cbn [stage_control] in Hc.
  pose proof (close_begins _ _ _ Hc Hout) as Hb.
  destruct (closing_run _ _ _ _ _ Hb H2)
    as (k & c & c' & Hpe & _ & new & kl & _ & _ & _ & Hk).
  split; [exact Hpe|].
  destruct k as [|[|[|[|[|]]]]]; try done.
  - destruct Hk as (_ & _ & ->). done.
  - destruct Hk as (dl & _ & _ & _ & ->). done.
  - destruct Hk as (dl & _ & _ & Hpr & ->). done.
Qed.

(** X13: when the broker has exited before [close] is called, [close]
    never settles: the kill is sent, the exit it waits for has already been
    emitted and is not emitted again, and the stop script is never run. *)
Theorem close_after_exit_never_settles s1 m1 h s2 m2 :
  run s1 (start [factory]) = Some m1 ->
  outcome_of 0 m1 = Some (Resolved (VHandle h)) ->
  procs m1 !! 0%nat = Some true ->
  run s2 (invoke 1 (close_root h) m1) = Some m2 ->
  outcome_of 1 m2 = None /\
  procs m2 = [true] /\
  exists new, trace m2 = new ++ trace m1 /\
              milestones (rev new) = [OHost 1 (Kill 0 "SIGKILL")].
Proof.
  intros H1 Hout Hex H2.
  destruct (factory_reach s1 m1 H1) as (st & _ & Ho & Hc).
  rewrite Hout in Ho.
  destruct st; try discriminate Ho. injection Ho as ->.
  cbn [stage_control] in Hc.
  destruct (close_begins_waiting _ _ _ Hc Hout) as [Hb Hpr].
  assert (Hone : procs m1 = [true]).
  { destruct Hc as (_ & Hlen & _).
    destruct (procs m1) as [|b [|]]; try discriminate Hlen.
    cbn in Hex. by injection Hex as ->. }
  rewrite Hone in Hpr.
  destruct (run_invariant _ (waiting_in_vain_step (listeners m1) (trace m1)) s2 _ m2
              (conj (ex_intro _ None (ex_intro _ None Hb)) Hpr) H2)
    as [(x & x' & _ & _ & new & kl & Htr & _ & Hms & _ & _ & Hnone) Hpr2].
  split; [exact Hnone|]. split; [exact Hpr2|]. by exists new.
Qed.

(** *** The unused allocator [getAvailablePort] *)

Lemma h_skipped_snoc skipped p :
  h_skipped (skipped ++ [p])
  = h_skipped skipped ++ [OCall 0 CGetPort; OReturn 0 (RPort None p); OIncludes 0 0 p].
Proof. unfold h_skipped. by rewrite flat_map_app. Qed.

Lemma port_inv_start init0 fuel : port_inv init0 (start [port_root init0 fuel]).
Proof.
  destruct fuel as [|fuel].
  - exists (Exhausted []). cbn. repeat split; constructor.
  - exists (Probing [] fuel). cbn. repeat split; constructor.
Qed.

Lemma port_inv_step init0 c m m' :
  port_inv init0 m -> step c m = Some m' -> port_inv init0 m'.
Proof.
  intros (st & Hact & Hset & Hpend & Hheap & Hprocs & Hsk & Hok) Hstep.
  destruct m as [pe li he pr tr se].
  cbn [pending listeners heap procs trace settled] in *. subst pe he pr se.
  destruct c as [i r|p e]; [|by destruct p].
  destruct st as [skipped fuel| | |]; cbn [port_pending] in Hstep;
    try (by destruct i).
  destruct i as [|i]; [|by destruct i].
  destruct r as [err port| | | | | |]; try discriminate Hstep.
  cbn [port_history port_skipped] in *.
  rewrite rev_app_distr in Hact. cbn [rev app] in Hact.
  cbn in Hstep. destruct err as [e|].
  - (* the probe fails *)
    cbn in Hstep. injection Hstep as <-.
    exists (Refused skipped e port).
    split; [|by repeat split].
    cbn [trace port_history]. rewrite !rev_app_distr. cbn [rev app].
    change (OSettle 0 (Rejected e) :: OReturn 0 (RPort (Some e) port) :: actions tr
            = OSettle 0 (Rejected e) :: OReturn 0 (RPort (Some e) port)
                :: OCall 0 CGetPort :: rev (h_skipped skipped)).
    by rewrite Hact.
  - cbn in Hstep. destruct (bool_decide (port ∈ takenPorts init0)) eqn:Ht.
    + (* the port is held: another probe, if there is one left *)
      apply bool_decide_eq_true in Ht.
      assert (Hsk' : Forall (fun p => p ∈ takenPorts init0) (skipped ++ [port])).
      { apply Forall_app. split; [done|]. by repeat constructor. }
      destruct fuel as [|fuel]; cbn in Hstep; injection Hstep as <-.
      * exists (Exhausted (skipped ++ [port])).
        split; [|by repeat split].
        cbn [trace port_history]. rewrite h_skipped_snoc, !rev_app_distr. cbn [rev app].
        change (OIncludes 0 0 port :: OReturn 0 (RPort None port) :: actions tr
                = OIncludes 0 0 port :: OReturn 0 (RPort None port)
                    :: OCall 0 CGetPort :: rev (h_skipped skipped)).
        by rewrite Hact.
      * exists (Probing (skipped ++ [port]) fuel).
        split; [|by repeat split].
        cbn [trace port_history]. rewrite h_skipped_snoc, !rev_app_distr. cbn [rev app].
        change (OCall 0 CGetPort :: OIncludes 0 0 port :: OReturn 0 (RPort None port)
                  :: actions tr
                = OCall 0 CGetPort :: OIncludes 0 0 port :: OReturn 0 (RPort None port)
                    :: OCall 0 CGetPort :: rev (h_skipped skipped)).
        by rewrite Hact.
    + (* the port is free: it is the answer *)
      apply bool_decide_eq_false in Ht.
      cbn in Hstep. unfold logDebug in Hstep. cbn in Hstep. injection Hstep as <-.
      exists (Accepted skipped port).
      split; [|by repeat split].
      cbn [trace port_history]. rewrite !rev_app_distr. cbn [rev app].
      transitivity (OSettle 0 (Resolved (VPort port)) :: OIncludes 0 0 port
                      :: OReturn 0 (RPort None port) :: actions tr).
      { by destruct verbose. }
      by rewrite Hact.
Qed.

Lemma port_reach init0 fuel script m :
  run script (start [port_root init0 fuel]) = Some m -> port_inv init0 m.
Proof. apply (run_invariant (port_inv init0)), port_inv_start. apply port_inv_step. Qed.

Lemma elem_h_skipped o skipped :
  o ∈ h_skipped skipped ->
  o = ONew 0 0 \/ o = OCall 0 CGetPort \/
  exists p, p ∈ skipped /\ (o = OReturn 0 (RPort None p) \/ o = OIncludes 0 0 p).
Proof.
  unfold h_skipped. intros [->|Hin]%elem_of_cons; [by left|]. right.
  induction skipped as [|q skipped IH]; [by apply elem_of_nil in Hin|].
  cbn [flat_map app] in Hin. in_list Hin.
  - by left.
  - right. exists q. split; [by left|by left].
  - right. exists q. split; [by left|by right].
  - destruct (IH Hin) as [?|(p & Hp & Ho)]; [by left|].
    right. exists p. split; [by right|done].
Qed.

Lemma port_reach_history init0 fuel script m :
  run script (start [port_root init0 fuel]) = Some m ->
  exists st,
    actions (history m) = port_history st /\
    outcome_of 0 m = (snd <$> head (port_settled st)) /\
    heap m = [init0] /\
    Forall (fun p => p ∈ takenPorts init0) (port_skipped st) /\
    match st with Accepted _ p => p ∉ takenPorts init0 | _ => True end.
Proof.
  intros (st & Hact & Hset & _ & Hheap & _ & Hsk & Hok)%port_reach.
  exists st. rewrite actions_history, Hact, rev_involutive.
  unfold outcome_of. rewrite Hset. by destruct st.
Qed.

(** X14: when [getAvailablePort] resolves, it resolves with the port of
    the last answer of the probe; that port is not in [takenPorts], every
    port answered before it is, and each of those was followed by one new
    probe. *)
Theorem getAvailablePort_accepts_the_first_free_port init0 fuel script m v :
  run script (start [port_root init0 fuel]) = Some m ->
  outcome_of 0 m = Some (Resolved v) ->
  exists skipped p,
    v = VPort p /\ (p ∉ takenPorts init0) /\
    Forall (fun q => q ∈ takenPorts init0) skipped /\
    actions (history m)
    = h_skipped skipped
        ++ [OCall 0 CGetPort; OReturn 0 (RPort None p); OIncludes 0 0 p;
            OSettle 0 (Resolved (VPort p))].
Proof.
  intros (st & Hh & Ho & _ & Hsk & Hok)%port_reach_history Hout.
  rewrite Hout in Ho. destruct st; try discriminate Ho. injection Ho as ->.
  by exists skipped, p.
Qed.

(** X15: [getAvailablePort] rejects exactly when the probe reports an error,
    and with that error. *)
Theorem getAvailablePort_rejects_with_the_probe_error init0 fuel script m e :
  run script (start [port_root init0 fuel]) = Some m ->
  outcome_of 0 m = Some (Rejected e)
  <-> exists port, OReturn 0 (RPort (Some e) port) ∈ history m.
Proof.
  intros (st & Hh & Ho & _ & _ & _)%port_reach_history.
  assert (Hsub : forall o, o ∈ port_history st -> o ∈ history m).
  { intros o Hin. rewrite <- Hh in Hin. by apply elem_actions in Hin as [? _]. }
  rewrite Ho. split.
  - intros Heq. destruct st; try discriminate Heq. injection Heq as ->.
    exists port. apply Hsub. cbn [port_history]. apply elem_of_app. right. listed.
  - intros (port & Hin). apply action_in_history in Hin; [|done].
    rewrite Hh in Hin.
    assert (Hno : OReturn 0 (RPort (Some e) port) ∉ h_skipped (port_skipped st)).
    { intros [?|[?|(p & _ & [?|?])]]%elem_h_skipped; discriminate. }
    destruct st; cbn [port_history port_skipped] in *.
    + apply elem_of_app in Hin as [Hin|Hin]; [done|]. in_list Hin.
    + done.
    + apply elem_of_app in Hin as [Hin|Hin]; [done|]. in_list Hin.
    + apply elem_of_app in Hin as [Hin|Hin]; [done|]. in_list Hin.
      by injection Hin as -> ->.
Qed.

(** X16: [getAvailablePort] reads [takenPorts] and never writes it: the
    manager is after the call, however it ends, what it was before, so the
    port it accepted is not recorded as taken. *)
Theorem getAvailablePort_records_nothing init0 fuel script m :
  run script (start [port_root init0 fuel]) = Some m ->
  heap m = [init0] /\
  forall tid this port, OPush tid this port ∉ history m.
Proof.
  intros (st & Hh & _ & Hheap & _ & _)%port_reach_history.
  split; [exact Hheap|]. intros tid this port Hin.
  apply action_in_history in Hin; [|done]. rewrite Hh in Hin.
  assert (Hno : OPush tid this port ∉ h_skipped (port_skipped st)).
  { intros [?|[?|(p & _ & [?|?])]]%elem_h_skipped; discriminate. }
  destruct st; cbn [port_history port_skipped] in *; try done.
  all: apply elem_of_app in Hin as [Hin|Hin]; [done|]; in_list Hin.
Qed.

(** *** Console output *)

Lemma silent_intro m pe li he pr tr se :
  silent m ->
  (forall tid t, (tid, t) ∈ pe -> hushed t) ->
  (forall tid p l e t, (tid, p, l) ∈ li -> fire l e = Some t -> hushed t) ->
  (exists new, tr = new ++ trace m /\ Forall (fun o => is_console o = false) new) ->
  silent (MkMachine pe li he pr tr se).
Proof.
  intros (_ & _ & Htr) Hpe Hli (new & -> & Hnew).
  split; [exact Hpe|]. split; [exact Hli|]. cbn [trace]. by apply Forall_app.
Qed.

Ltac silent_fields Hm :=
  eapply (silent_intro _ _ _ _ _ _ _ Hm);
  cbn [pending listeners heap procs trace settled];
  try apply Hm.

Ltac still_waiting Hm :=
  unfold m_wait; silent_fields Hm;
  [ intros tid' t' [Hin|Hin]%elem_of_app;
    [ destruct Hm as (Hpe & _); by eapply Hpe
    | apply list_elem_of_singleton in Hin; injection Hin as -> ->; by constructor ]
  | eexists [_]; split; [reflexivity|]; by repeat constructor ].

(** With logging off, a hushed task leaves the console untouched. *)
Lemma advance_hushed tid t m :
  verbose = false -> hushed t -> silent m -> silent (advance tid t m).
Proof.
  intros Hv Ht; revert m.
  induction Ht; intros m Hm; cbn [advance].
  - unfold m_settle. destruct (outcome_of tid m); [done|].
    silent_fields Hm. eexists [_]. by repeat constructor.
  - unfold m_settle. destruct (outcome_of tid m); [done|].
    silent_fields Hm. eexists [_]. by repeat constructor.
  - done.
  - apply H0. unfold m_log, m_heap. silent_fields Hm.
    eexists [_]. by repeat constructor.
  - destruct (heap m !! this) as [o|]; [|done].
    destruct (decoder_write (decoder o) data) as [text held].
    apply H0. unfold m_log, m_heap. silent_fields Hm.
    eexists [_]. by repeat constructor.
  - destruct (heap m !! this) as [o|]; [|done].
    apply H0. unfold m_log. silent_fields Hm. eexists [_]. by repeat constructor.
  - destruct (heap m !! this) as [o|]; [|done].
    apply IHHt. unfold m_log, m_heap. silent_fields Hm.
    eexists [_]. by repeat constructor.
  - apply IHHt. unfold m_log. silent_fields Hm. eexists [_].
    split; [reflexivity|]. repeat constructor.
    destruct c as [| | |msg' a'|]; try done. by destruct (H msg' a').
  - apply IHHt. unfold logDebug. rewrite Hv. silent_fields Hm. by exists [].
  - apply H0. unfold m_log, m_procs. silent_fields Hm.
    eexists [_]. by repeat constructor.
  - apply IHHt. unfold m_listen. silent_fields Hm; [|by exists []].
    intros tid' p' l' e t [Hin|Hin]%elem_of_app Hf;
      [destruct Hm as (_ & Hli & _); by eapply Hli|].
    apply list_elem_of_singleton in Hin. injection Hin as -> -> ->.
    destruct e as [s' d| |]; try discriminate Hf. cbn in Hf.
    case_decide; [|discriminate]. injection Hf as <-. apply H.
  - apply IHHt. unfold m_listen. silent_fields Hm; [|by exists []].
    intros tid' p' l' e' t [Hin|Hin]%elem_of_app Hf;
      [destruct Hm as (_ & Hli & _); by eapply Hli|].
    apply list_elem_of_singleton in Hin. injection Hin as -> -> ->.
    destruct e' as [s' d| |]; try discriminate Hf. injection Hf as <-. apply H.
  - apply IHHt. unfold m_listen. silent_fields Hm; [|by exists []].
    intros tid' p' l' e' t [Hin|Hin]%elem_of_app Hf;
      [destruct Hm as (_ & Hli & _); by eapply Hli|].
    apply list_elem_of_singleton in Hin. injection Hin as -> -> ->.
    destruct e' as [s' d| |]; try discriminate Hf. injection Hf as <-. apply H.
  - still_waiting Hm.
  - still_waiting Hm.
  - still_waiting Hm.
  - still_waiting Hm.
  - still_waiting Hm.
  - still_waiting Hm.
  - still_waiting Hm.
Qed.

Lemma complete_hushed t r t' : hushed t -> complete t r = Some t' -> hushed t'.
Proof.
  intros Ht Hc. destruct Ht; destruct r; try discriminate Hc;
    injection Hc as <-; auto.
Qed.

Lemma deliver_hushed p e ls m :
  verbose = false ->
  (forall tid q l e0 t, (tid, q, l) ∈ ls -> fire l e0 = Some t -> hushed t) ->
  silent m -> silent (deliver p e ls m).
Proof.
  intros Hv. revert m; induction ls as [|[[tid q] l] ls IH]; intros m Hls Hm; [done|].
  cbn [deliver foldl].
  assert (Hrest : forall tid q l e0 t,
             (tid, q, l) ∈ ls -> fire l e0 = Some t -> hushed t).
  { intros ? ? ? ? ? Hin. eapply Hls. by right. }
  case_decide; [|by apply IH].
  destruct (fire l e) as [t|] eqn:Hf; [|by apply IH].
  apply IH; [done|]. apply advance_hushed; [done| |done].
  eapply Hls; [by left|exact Hf].
Qed.

Lemma silent_step c m m' :
  verbose = false -> silent m -> step c m = Some m' -> silent m'.
Proof.
  intros Hv Hm Hstep. destruct c as [i r|p e]; cbn [step] in Hstep.
  - destruct (pending m !! i) as [[tid t]|] eqn:Hi; [|discriminate].
    destruct (complete t r) as [t'|] eqn:Hc; [|discriminate]. injection Hstep as <-.
    assert (Ht : hushed t).
    { destruct Hm as (Hpe & _). eapply Hpe. by eapply list_elem_of_lookup_2. }
    apply advance_hushed; [done|by eapply complete_hushed|].
    unfold m_log, m_pending. silent_fields Hm.
    + intros tid' t0 Hin. destruct Hm as (Hpe & _). eapply Hpe.
      eapply list_elem_of_delete_inv, Hin.
    + eexists [_]. by repeat constructor.
  - destruct (procs m !! p) as [ex|]; [|discriminate].
    destruct (ex && is_exit e)%bool; [discriminate|]. injection Hstep as <-.
    apply deliver_hushed; [done|apply Hm|].
    destruct (is_exit e); unfold m_log, m_procs; silent_fields Hm;
      eexists [_]; by repeat constructor.
Qed.

Lemma silent_start_from roots tid m :
  verbose = false -> Forall hushed roots -> silent m ->
  silent (start_from tid roots m).
Proof.
  intros Hv. revert tid m; induction roots as [|t roots IH]; intros tid m Hr Hm; [done|].
  apply Forall_cons in Hr as [Ht Hr]. cbn [start_from].
  apply IH; [done|]. by apply advance_hushed.
Qed.

Ltac hush :=
  repeat (intros;
    repeat match goal with
      | e : option JsError |- _ => destruct e
      | c : option Z |- _ => destruct c
      | |- context [bool_decide (?x = ?y)] => destruct (bool_decide (x = y))
      end;
    match goal with
    | |- hushed ?t => let t' := eval hnf in t in change (hushed t')
    end;
    constructor; try discriminate).

Lemma factory_hushed : hushed factory.
Proof.
  unfold factory, makeKafkaServer, KafkaManager_constructor, startKafkaServer,
    startKafkaProcess, createKafkaConfig, initializeStorage,
    createTempDirectory, allocatePorts, killProcess, stopKafkaServer, waitFor,
    setupConsoleOverrides.
  unfold mbind, mret, Task_bind, Task_ret. hush.
Qed.

Lemma lifecycle_hushed : hushed lifecycle.
Proof.
  unfold lifecycle, makeKafkaServer, KafkaManager_constructor, startKafkaServer,
    startKafkaProcess, createKafkaConfig, initializeStorage,
    createTempDirectory, allocatePorts, killProcess, stopKafkaServer, waitFor,
    setupConsoleOverrides.
  unfold mbind, mret, Task_bind, Task_ret. hush.
Qed.

(** X17: unless [KAFKA_PLEASE_LOG] is exactly [verbose], the harness writes
    nothing to the console: whatever invocations of the factory run, started
    only or also closed, and whatever the host answers and the children
    emit, no [console.log] is in the history. *)
Theorem console_is_silent_unless_verbose roots script m :
  process_env !! KAFKA_LOG_ENV <> Some "verbose" ->
  Forall (fun t => t = factory \/ t = lifecycle) roots ->
  run script (start roots) = Some m ->
  forall tid msg args, OHost tid (ConsoleLog msg args) ∉ history m.
Proof.
  intros Henv Hr Hrun tid msg args Hin.
  assert (Hv : verbose = false).
  { with_strategy transparent [verbose] unfold verbose. by apply bool_decide_eq_false. }
  assert (Hs : silent m).
  { eapply (run_invariant silent); [intros c m0 m1; by apply silent_step| |exact Hrun].
    apply silent_start_from; [done| |].
    - eapply Forall_impl; [exact Hr|].
      intros t [->| ->]; [apply factory_hushed|apply lifecycle_hushed].
    - split; [by intros ? ? ?%elem_of_nil|]. split; [by intros ? ? ? ? ? ?%elem_of_nil|].
      constructor. }
  destruct Hs as (_ & _ & Htr). rewrite Forall_forall in Htr.
  apply elem_history in Hin. by apply Htr in Hin.
Qed.

(** *** The decoder of the child's output *)

Lemma omap_no_data {A} (f : Obs -> option A) new l :
  Forall (fun o => f o = None) new -> omap f (new ++ l) = omap f l.
Proof.
  induction 1 as [|o new Ho _ IH]; [done|].
  cbn [app]. change (omap f (o :: new ++ l))
    with (match f o with Some c => c :: omap f (new ++ l) | None => omap f (new ++ l) end).
  by rewrite Ho.
Qed.

Lemma omap_rev {A} (f : Obs -> option A) l : omap f (rev l) = rev (omap f l).
Proof.
  induction l as [|o l IH]; [done|]. cbn [rev]. rewrite omap_app, IH.
  change (omap f (o :: l))
    with (match f o with Some c => c :: omap f l | None => omap f l end).
  change (omap f [o]) with (match f o with Some c => [c] | None => [] end).
  destruct (f o); [done|by rewrite app_nil_r].
Qed.

Lemma no_data_both new l :
  Forall no_data new ->
  omap written_of (new ++ l) = omap written_of l /\
  omap chunk_of (new ++ l) = omap chunk_of l.
Proof.
  intros Hn. split; apply omap_no_data; eapply Forall_impl; try exact Hn;
    by intros o [? ?].
Qed.

Lemma advance_logs_only tid t m :
  logs_only t ->
  pending (advance tid t m) = pending m /\
  listeners (advance tid t m) = listeners m /\
  heap (advance tid t m) = heap m /\
  procs (advance tid t m) = procs m /\
  exists new, trace (advance tid t m) = new ++ trace m /\ Forall no_data new.
Proof.
  intros Ht; revert m; induction Ht as [|msg a k Hk IH]; intros m; cbn [advance].
  - repeat split. by exists [].
  - destruct (IH (logDebug tid msg a m)) as (E1 & E2 & E3 & E4 & new & E5 & E6).
    rewrite E1, E2, E3, E4, E5. unfold logDebug. cbn. repeat split.
    destruct verbose.
    + exists (new ++ [OHost tid (ConsoleLog msg a)]). rewrite <- app_assoc.
      split; [done|]. apply Forall_app. split; [done|]. by repeat constructor.
    + by exists new.
Qed.

Lemma advance_resolves_data tid v t m :
  resolves_with v t ->
  pending (advance tid t m) = pending m /\
  listeners (advance tid t m) = listeners m /\
  heap (advance tid t m) = heap m /\
  procs (advance tid t m) = procs m /\
  exists new, trace (advance tid t m) = new ++ trace m /\ Forall no_data new.
Proof.
  intros Ht; revert m; induction Ht as [|msg a k Hk IH]; intros m; cbn [advance].
  - unfold m_settle. destruct (outcome_of tid m).
    + repeat split. by exists [].
    + cbn. repeat split. exists [OSettle tid (Resolved v)]. by repeat constructor.
  - destruct (IH (logDebug tid msg a m)) as (E1 & E2 & E3 & E4 & new & E5 & E6).
    rewrite E1, E2, E3, E4, E5. unfold logDebug. cbn. repeat split.
    destruct verbose.
    + exists (new ++ [OHost tid (ConsoleLog msg a)]). rewrite <- app_assoc.
      split; [done|]. apply Forall_app. split; [done|]. by repeat constructor.
    + by exists new.
Qed.

Lemma advance_decodes d t m o :
  decodes d t -> heap m = [o] ->
  pending (advance 0 t m) = pending m /\
  listeners (advance 0 t m) = listeners m /\
  (exists o', heap (advance 0 t m) = [o']) /\
  procs (advance 0 t m) = procs m /\
  exists new, trace (advance 0 t m) = new ++ ODecoderWrite 0 0 d :: trace m /\
              Forall no_data new.
Proof.
  intros [k Hk] Hh. cbn [advance]. rewrite Hh. cbn [lookup list_lookup].
  destruct (decoder_write (decoder o) d) as [text held].
  match goal with |- context [advance 0 (k text) ?m0] =>
    destruct (advance_logs_only 0 (k text) m0 (Hk text)) as (E1 & E2 & E3 & E4 & E5)
  end.
  rewrite E1, E2, E3, E4. cbn. repeat split; [by eexists|exact E5].
Qed.

Lemma wired_step c m m' : wired m -> step c m = Some m' -> wired m'.
Proof.
  intros ((f1 & f2 & f3 & f4 & Hli & H1 & H2 & H3 & H4) & (o & Hh) & Hpr & Hpe & Hdata)
    Hstep.
  destruct c as [i r|p e]; cbn [step] in Hstep.
  - destruct (pending m !! i) as [[tid t]|] eqn:Hi; [|discriminate].
    destruct (Hpe _ _ _ Hi) as (ms & cb & v & -> & Hcb).
    destruct r; try discriminate Hstep. cbn [complete] in Hstep. injection Hstep as <-.
    match goal with |- wired (advance _ _ ?m0) =>
      destruct (advance_resolves_data tid v cb m0 Hcb)
        as (E1 & E2 & E3 & E4 & new & E5 & E6)
    end.
    unfold wired. rewrite E1, E2, E3, E4, E5.
    cbn [m_log m_pending pending listeners heap procs trace].
    split; [by eauto 10|]. split; [by eauto|]. split; [done|]. split.
    + intros j tid' t' Hj.
      apply list_elem_of_lookup_2, list_elem_of_delete_inv, list_elem_of_lookup_1 in Hj
        as [j' Hj'].
      by eapply Hpe.
    + destruct (no_data_both new (OReturn tid RTimeout :: trace m) E6) as [-> ->].
      exact Hdata.
  - destruct (procs m) as [|b [|]] eqn:Hprocs; try discriminate Hpr.
    destruct p as [|p]; [|by destruct p]. cbn [lookup list_lookup] in Hstep.
    destruct (b && is_exit e)%bool; [discriminate|]. injection Hstep as <-.
    rewrite Hli. cbn [deliver foldl]. repeat (case_decide; [|done]).
    match goal with |- context [m_log (OEmit 0 e) ?m1] =>
      assert (Hm0 : pending (m_log (OEmit 0 e) m1) = pending m /\
                    listeners (m_log (OEmit 0 e) m1) = listeners m /\
                    heap (m_log (OEmit 0 e) m1) = [o] /\
                    length (procs (m_log (OEmit 0 e) m1)) = 1%nat /\
                    trace (m_log (OEmit 0 e) m1) = OEmit 0 e :: trace m)
        by (destruct (is_exit e); cbn; rewrite ?Hprocs; done);
      set (m0 := m_log (OEmit 0 e) m1) in *
    end.
    destruct Hm0 as (F1 & F2 & F3 & F4 & F5).
    destruct e as [s d|err|code]; cbn [fire].
    + (* a chunk on one of the streams: the listener of that stream decodes it *)
      assert (Hone : exists t, decodes d t /\
                (match (if decide (Stdout = s) then Some (f1 d) else None) with
                 | Some t1 =>
                     match (if decide (Stderr = s) then Some (f2 d) else None) with
                     | Some t2 => advance 0 t2 (advance 0 t1 m0)
                     | None => advance 0 t1 m0
                     end
                 | None =>
                     match (if decide (Stderr = s) then Some (f2 d) else None) with
                     | Some t2 => advance 0 t2 m0
                     | None => m0
                     end
                 end) = advance 0 t m0).
      { destruct s; repeat case_decide; try done; eauto. }
      destruct Hone as (t & Ht & Heq).
      match goal with |- wired ?mx => assert (Hmx : mx = advance 0 t m0) end.
      { rewrite <- Heq. by destruct s; repeat case_decide. }
      rewrite Hmx.
      destruct (advance_decodes d t m0 o Ht F3)
        as (E1 & E2 & E3 & E4 & new & E5 & E6).
      unfold wired. rewrite E1, E2, E4, E5, F1, F2, F4, F5.
      split; [by eauto 10|]. split; [exact E3|]. split; [done|]. split; [exact Hpe|].
      destruct (no_data_both new (ODecoderWrite 0 0 d :: OEmit 0 (EData s d) :: trace m) E6)
        as [-> ->].
      cbn. by rewrite Hdata.
    + (* ['error'] is only logged *)
      destruct (advance_logs_only 0 (f3 err) m0 (H3 err))
        as (E1 & E2 & E3 & E4 & new & E5 & E6).
      unfold wired. rewrite E1, E2, E3, E4, E5, F1, F2, F3, F4, F5.
      split; [by eauto 10|]. split; [by eauto|]. split; [done|]. split; [exact Hpe|].
      destruct (no_data_both new (OEmit 0 (EError err) :: trace m) E6) as [-> ->].
      exact Hdata.
    + (* ['exit'] is only logged *)
      destruct (advance_logs_only 0 (f4 code) m0 (H4 code))
        as (E1 & E2 & E3 & E4 & new & E5 & E6).
      unfold wired. rewrite E1, E2, E3, E4, E5, F1, F2, F3, F4, F5.
      split; [by eauto 10|]. split; [by eauto|]. split; [done|]. split; [exact Hpe|].
      destruct (no_data_both new (OEmit 0 (EExit code) :: trace m) E6) as [-> ->].
      exact Hdata.
Qed.

Ltac shape :=
  repeat (intros;
    match goal with
    | |- ?P ?t => let t' := eval hnf in t in change (P t')
    end;
    constructor).

Ltac wired_state :=
  unfold wired; cbn [listeners procs pending trace heap length];
  split;
  [ eexists _, _, _, _; split; [reflexivity|]; repeat split; shape
  | split; [by eexists|]; split; [reflexivity|]; split;
    [ intros [|i] tid t Hi; [|by destruct i];
      injection Hi as <- <-; eexists _, _, _; split; [reflexivity|];
      cbn [bind catch]; repeat constructor
    | reflexivity ] ].

Lemma factory_decoding script m :
  run script (start [factory]) = Some m ->
  omap written_of (trace m) = omap chunk_of (trace m).
Proof.
  intros H. unfold_methods H.
  destruct verbose eqn:Hv.
  all: exec H.
  all: answer H; [reflexivity|].
  all: destruct err as [e|]; exec H; [dead H; reflexivity|].
  all: answer H; [reflexivity|].
  all: destruct err as [e|]; exec H; [dead H; reflexivity|].
  all: answer H; [reflexivity|].
  all: destruct err as [e|]; exec H; [dead H; reflexivity|].
  all: answer H; [reflexivity|].
  all: exec H.
  all: answer H; [reflexivity|].
  all: destruct err0 as [e|]; exec H; [dead H; reflexivity|].
  all: destruct (bool_decide (stderr = "")); exec H.
  all: eapply (run_invariant wired wired_step) in H;
    [by destruct H as (_ & _ & _ & _ & ?)|].
  all: wired_state.
Qed.

(** X18: the chunks the child writes on its standard output and on its
    standard error all go through the one decoder of the manager, in the
    order in which they arrive, and nothing else does: what was passed to
    [decoder.write] is, chunk for chunk, what the child wrote on the two
    streams together. *)
Theorem both_streams_share_the_decoder script m :
  run script (start [factory]) = Some m -> decoded m = chunks m.
Proof.
  intros H%factory_decoding. unfold decoded, chunks, history.
  by rewrite !omap_rev, H.
Qed.
End Kafka.

(** * The theorems on a concrete host *)

(** A POSIX host with verbose logging: the broker distribution is under
    [/srv/harness/kafka] and nothing is bound from the base port on. *)

Local Abbreviation posix_factory :=
  (factory false demo_properties demo_bin demo_env).

Local Abbreviation posix_run := (run demo_env demo_decoder).

Local Abbreviation posix_start := (start demo_env demo_decoder).

(** The state a script leads to from the start of [roots]. *)
Local Abbreviation reached script roots :=
  (default init (posix_run script (posix_start roots))).

Local Abbreviation posix_handle := (handle_of false demo_bin demo_ports 0).

(** The state after [close] was called on the handle and ran to its end. *)
Local Abbreviation closed :=
  (default init
     (posix_run script_close
        (invoke demo_env demo_decoder 1 (close_root posix_handle)
           (reached script_start [posix_factory])))).

(** The config step alone, as the pipeline calls it for the workspace
    [/tmp/kafka-1] and the ports 18000 and 18001. *)
Local Abbreviation posix_config :=
  (config_root false demo_properties 0 "/tmp/kafka-1" (Some 18001%N) (Some 18000%N)).

Local Abbreviation script_config :=
  [Complete 0 (REditor None demo_template); Complete 0 (RSaved None)].

(** The storage step alone, on the config file of that workspace. *)
Local Abbreviation posix_storage :=
  (storage_root false demo_bin 0 "/tmp/kafka-1/server.properties").

Local Abbreviation script_storage :=
  [Complete 0 (RExec None "Formatting metadata directory" EmptyString)].

(** The config of the instance in [/tmp/kafka-1] on the ports 18000 and
    18001, written out. *)
Local Abbreviation written_config :=
  (<["controller.listener.names" := "CONTROLLER"]> (
   <["advertised.listeners" := "PLAINTEXT://localhost:18000,CONTROLLER://localhost:18001"]> (
   <["listeners" := "PLAINTEXT://localhost:18000,CONTROLLER://localhost:18001"]> (
   <["controller.quorum.bootstrap.servers" := "localhost:18001"]> (
   <["log.dirs" := "/tmp/kafka-1"]> demo_template)))) : Props).

(** The config cannot be written, and the host goes on answering. *)
Local Abbreviation save_failed :=
  (MkError "ENOSPC: no space left on device, write" None).

Local Abbreviation script_save_fails :=
  [Complete 0 (RPorts None demo_ports); Complete 0 (RDir None "/tmp/kafka-1");
   Complete 0 (REditor None demo_template); Complete 0 (RSaved (Some save_failed));
   Complete 0 (RExec None "Formatting metadata directory" EmptyString);
   Complete 0 RTimeout].


Ltac by_evaluation := vm_compute; reflexivity.

Ltac at_index i := apply (list_elem_of_lookup_2 _ i); vm_compute; reflexivity.

Ltac in_history_from i fuel :=
  lazymatch fuel with
  | O => fail "not in the history"
  | S ?fuel' => first [at_index i | in_history_from (S i) fuel']
  end.

Ltac in_history := in_history_from 0%nat 40%nat.

(** C1: two invocations of the factory in one process, the second before
    the broker of the first is spawned.  Nothing is bound yet, so the probe
    answers both with the base port and the next one: both invocations
    resolve with a handle on the client port 18000, the same pair of ports
    was returned by two successful allocations, and no [takenPorts] was
    read or written on the way. *)
Theorem C1_concurrent_allocations_return_the_same_ports :
  portfinder_getPorts [] BASE_PORT = Some demo_ports /\
  posix_run script_two_instances (posix_start [posix_factory; posix_factory])
    = Some (reached script_two_instances [posix_factory; posix_factory]) /\
  calls (reached script_two_instances [posix_factory; posix_factory])
    !! 0%nat = Some (CGetPorts 2) /\
  calls (reached script_two_instances [posix_factory; posix_factory])
    !! 1%nat = Some (CGetPorts 2) /\
  resolved_port
    (outcome_of 0 (reached script_two_instances [posix_factory; posix_factory]))
    = Some 18000%N /\
  resolved_port
    (outcome_of 1 (reached script_two_instances [posix_factory; posix_factory]))
    = Some 18000%N /\
  forallb (fun o => negb (touches_takenPorts o))
    (history (reached script_two_instances [posix_factory; posix_factory])) = true.
Proof. repeat (split; [by_evaluation|]). by_evaluation. Qed.

(** The sibling [getAvailablePort], which nothing calls, does consult
    [takenPorts]: on a manager that holds 18000 it asks the probe again and
    again and never accepts that port. *)
Lemma getAvailablePort_skips_taken_ports :
  let m := default init
             (posix_run [Complete 0 (RPort None 18000); Complete 0 (RPort None 18001)]
                (posix_start [port_root (MkManager EmptyString [18000%N]) 8])) in
  outcome_of 0 m = Some (Resolved (VPort 18001)) /\
  filter (fun o => touches_takenPorts o) (history m)
    = [OIncludes 0 0 18000%N; OIncludes 0 0 18001%N].
Proof. cbv zeta. split; by_evaluation. Qed.

(** The binary cannot be launched: the child emits ['error'] during the
    startup interval, and the factory still resolves with a handle; it is
    not rejected. *)
Lemma C2_spawn_error_resolves_counterexample :
  posix_run script_spawn_error (posix_start [posix_factory])
    = Some (reached script_spawn_error [posix_factory]) /\
  OEmit 0 (EError spawn_enoent) ∈ history (reached script_spawn_error [posix_factory]) /\
  outcome_of 0 (reached script_spawn_error [posix_factory])
    = Some (Resolved (VHandle posix_handle)) /\
  forall e, outcome_of 0 (reached script_spawn_error [posix_factory])
            <> Some (Rejected e).
Proof.
  split; [by_evaluation|]. split; [in_history|]. split; [by_evaluation|].
  intros e. vm_compute. discriminate.
Qed.

Lemma C2_spawn_error_does_not_reject_witness :
  OEmit 0 (EError spawn_enoent) ∈ history (reached script_spawn_error [posix_factory]) /\
  (forall e', outcome_of 0 (reached script_spawn_error [posix_factory])
              <> Some (Rejected e')) /\
  (OReturn 0 RTimeout ∈ history (reached script_spawn_error [posix_factory]) ->
   exists h, outcome_of 0 (reached script_spawn_error [posix_factory])
             = Some (Resolved (VHandle h))).
Proof.
  assert (Hrun : posix_run script_spawn_error (posix_start [posix_factory])
                 = Some (reached script_spawn_error [posix_factory]))
    by by_evaluation.
  assert (Hemit : OEmit 0 (EError spawn_enoent)
                    ∈ history (reached script_spawn_error [posix_factory]))
    by in_history.
  split; [exact Hemit|].
  exact (C2_spawn_error_does_not_reject false demo_properties demo_bin demo_env
           demo_decoder script_spawn_error _ 0 spawn_enoent Hrun Hemit).
Defined.

Lemma C3_config_overrides_five_keys_witness :
  OCall 0 (CSave "/tmp/kafka-1/server.properties" written_config)
    ∈ history (reached script_config [posix_config]) /\
  exists tmpl : Props,
    OReturn 0 (REditor None tmpl) ∈ history (reached script_config [posix_config]) /\
    "/tmp/kafka-1/server.properties" = "/tmp/kafka-1" +:+ path_sep false +:+ "server.properties" /\
    written_config !! "controller.listener.names" = Some "CONTROLLER" /\
    written_config !! "advertised.listeners"
      = Some "PLAINTEXT://localhost:18000,CONTROLLER://localhost:18001" /\
    written_config !! "listeners"
      = Some "PLAINTEXT://localhost:18000,CONTROLLER://localhost:18001" /\
    written_config !! "controller.quorum.bootstrap.servers" = Some "localhost:18001" /\
    written_config !! "log.dirs" = Some "/tmp/kafka-1" /\
    forall k, k ∉ overridden_keys -> written_config !! k = tmpl !! k.
Proof.
  assert (Hrun : posix_run script_config (posix_start [posix_config])
                 = Some (reached script_config [posix_config]))
    by by_evaluation.
  assert (Hsave : OCall 0 (CSave "/tmp/kafka-1/server.properties" written_config)
                    ∈ history (reached script_config [posix_config]))
    by in_history.
  split; [exact Hsave|].
  destruct (C3_config_overrides_five_keys false demo_properties demo_env demo_decoder
              0 "/tmp/kafka-1" (Some 18001%N) (Some 18000%N) script_config _ _ _
              Hrun Hsave)
    as (tmpl & Hed & Hfile & Hnames & Hadv & Hlis & Hboot & Hlog & Hother).
  exists tmpl.
  split; [exact Hed|]. split; [exact Hfile|]. split; [exact Hnames|].
  split; [exact Hadv|]. split; [exact Hlis|]. split; [exact Hboot|].
  split; [exact Hlog|exact Hother].
Defined.

Lemma C4_close_kills_then_waits_then_stops_witness :
  outcome_of 0 (reached script_start [posix_factory])
    = Some (Resolved (VHandle posix_handle)) /\
  exists new k c c',
    trace closed = new ++ trace (reached script_start [posix_factory]) /\
    milestones (rev new) = take (S k) (shutdown_sequence false demo_bin c c') /\
    (outcome_of 1 closed <> None ->
     milestones (rev new) = shutdown_sequence false demo_bin c c').
Proof.
  assert (Hrun : posix_run script_start (posix_start [posix_factory])
                 = Some (reached script_start [posix_factory]))
    by by_evaluation.
  assert (Hout : outcome_of 0 (reached script_start [posix_factory])
                 = Some (Resolved (VHandle posix_handle)))
    by by_evaluation.
  assert (Hclose : posix_run script_close
                     (invoke demo_env demo_decoder 1 (close_root posix_handle)
                        (reached script_start [posix_factory])) = Some closed)
    by by_evaluation.
  split; [exact Hout|].
  exact (C4_close_kills_then_waits_then_stops false demo_properties demo_bin demo_env
           demo_decoder script_start _ posix_handle script_close closed
           Hrun Hout Hclose).
Defined.

Lemma checked_errors_are_terminal_witness :
  OReturn 0 (RExec (Some format_failed) EmptyString "no such directory")
    ∈ history (reached script_format_fails [posix_factory]) /\
  outcome_of 0 (reached script_format_fails [posix_factory])
    = Some (Rejected format_failed) /\
  (exists before,
      actions (history (reached script_format_fails [posix_factory]))
      = before ++ [OReturn 0 (RExec (Some format_failed) EmptyString "no such directory");
                   OSettle 0 (Rejected format_failed)]) /\
  NoDup (calls (reached script_format_fails [posix_factory])).
Proof.
  assert (Hrun : posix_run script_format_fails (posix_start [posix_factory])
                 = Some (reached script_format_fails [posix_factory]))
    by by_evaluation.
  assert (Hret : OReturn 0 (RExec (Some format_failed) EmptyString "no such directory")
                   ∈ history (reached script_format_fails [posix_factory]))
    by in_history.
  split; [exact Hret|].
  exact (checked_errors_are_terminal false demo_properties demo_bin demo_env
           demo_decoder script_format_fails _ _ format_failed Hrun Hret eq_refl).
Defined.

Lemma C5_save_error_is_not_terminal_witness :
  OReturn 0 (RSaved (Some save_failed))
    ∈ history (reached script_save_fails [posix_factory]) /\
  length (calls (reached script_save_fails [posix_factory])) = 6%nat /\
  resolved_port (outcome_of 0 (reached script_save_fails [posix_factory]))
    = Some 18000%N /\
  (exists dir,
      OCall 0 (CExec (format_command false demo_bin (config_file false dir)))
        ∈ history (reached script_save_fails [posix_factory])) /\
  (forall e',
      outcome_of 0 (reached script_save_fails [posix_factory]) = Some (Rejected e') ->
      exists out errout,
        OReturn 0 (RExec (Some e') out errout)
          ∈ history (reached script_save_fails [posix_factory])) /\
  (OReturn 0 RTimeout ∈ history (reached script_save_fails [posix_factory]) ->
   exists h, outcome_of 0 (reached script_save_fails [posix_factory])
             = Some (Resolved (VHandle h))).
Proof.
  assert (Hrun : posix_run script_save_fails (posix_start [posix_factory])
                 = Some (reached script_save_fails [posix_factory]))
    by by_evaluation.
  assert (Hret : OReturn 0 (RSaved (Some save_failed))
                   ∈ history (reached script_save_fails [posix_factory]))
    by in_history.
  split; [exact Hret|]. split; [by_evaluation|]. split; [by_evaluation|].
  exact (C5_save_error_is_not_terminal false demo_properties demo_bin demo_env
           demo_decoder script_save_fails _ save_failed Hrun Hret).
Defined.

Lemma C6_storage_formatted_once_witness :
  calls (reached script_storage [posix_storage])
    = [CExec (format_command false demo_bin "/tmp/kafka-1/server.properties")] /\
  (forall e,
      outcome_of 0 (reached script_storage [posix_storage]) = Some (Rejected e) <->
      exists out errout,
        OReturn 0 (RExec (Some e) out errout)
          ∈ history (reached script_storage [posix_storage])) /\
  (forall v,
      outcome_of 0 (reached script_storage [posix_storage]) = Some (Resolved v) <->
      v = VUnit /\
      exists out errout,
        OReturn 0 (RExec None out errout)
          ∈ history (reached script_storage [posix_storage])).
Proof.
  assert (Hrun : posix_run script_storage (posix_start [posix_storage])
                 = Some (reached script_storage [posix_storage]))
    by by_evaluation.
  exact (C6_storage_formatted_once false demo_bin demo_env demo_decoder 0
           "/tmp/kafka-1/server.properties" script_storage _ Hrun).
Defined.

Lemma C7_child_spawned_on_config_in_workspace_witness :
  OSpawn 0 0 (start_script false demo_bin) ["/tmp/kafka-1/server.properties"]
     (child_opts demo_env "/tmp/kafka-1")
    ∈ history (reached script_start [posix_factory]) /\
  exists dir props o,
    OReturn 0 (RDir None dir) ∈ history (reached script_start [posix_factory]) /\
    OCall 0 (CSave (config_file false dir) props)
      ∈ history (reached script_start [posix_factory]) /\
    start_script false demo_bin = start_script false demo_bin /\
    ["/tmp/kafka-1/server.properties"] = [config_file false dir] /\
    child_opts demo_env "/tmp/kafka-1" = Some o /\
    spawn_cwd o = dir /\
    spawn_env o !! "JMX_PORT" = Some EmptyString /\
    forall k, k <> "JMX_PORT" -> spawn_env o !! k = demo_env !! k.
Proof.
  assert (Hrun : posix_run script_start (posix_start [posix_factory])
                 = Some (reached script_start [posix_factory]))
    by by_evaluation.
  assert (Hsp : OSpawn 0 0 (start_script false demo_bin)
                   ["/tmp/kafka-1/server.properties"]
                   (child_opts demo_env "/tmp/kafka-1")
                  ∈ history (reached script_start [posix_factory]))
    by in_history.
  split; [exact Hsp|].
  exact (C7_child_spawned_on_config_in_workspace false demo_properties demo_bin
           demo_env demo_decoder script_start _ _ _ _ _ _ Hrun Hsp).
Defined.

Lemma C8_factory_resolves_to_handle_witness :
  outcome_of 0 (reached script_start [posix_factory])
    = Some (Resolved (VHandle posix_handle)) /\
  exists a h,
    VHandle posix_handle = VHandle h /\
    kafkaPort h = a_ports a !! 0%nat /\
    close h = (killProcess 0 0 ;; stopKafkaServer false demo_bin 0) /\
    OReturn 0 (RPorts None (a_ports a))
      ∈ history (reached script_start [posix_factory]) /\
    actions (history (reached script_start [posix_factory]))
    = h_saved false demo_properties demo_bin (a_ports a) (a_dir a) (a_tmpl a) (a_saved a)
      ++ [OReturn 0 (RExec None (a_stdout a) (a_stderr a));
          OSpawn 0 0 (start_script false demo_bin) [config_file false (a_dir a)]
            (child_opts demo_env (a_dir a));
          OCall 0 (CSetTimeout WAIT_TIME);
          OReturn 0 RTimeout;
          OSettle 0 (Resolved (VHandle posix_handle))].
Proof.
  assert (Hrun : posix_run script_start (posix_start [posix_factory])
                 = Some (reached script_start [posix_factory]))
    by by_evaluation.
  assert (Hout : outcome_of 0 (reached script_start [posix_factory])
                 = Some (Resolved (VHandle posix_handle)))
    by by_evaluation.
  split; [exact Hout|].
  exact (C8_factory_resolves_to_handle false demo_properties demo_bin demo_env
           demo_decoder script_start _ _ Hrun Hout).
Defined.

Lemma C9_takenPorts_stays_empty_witness :
  Forall (fun o => takenPorts o = [])
    (heap (reached script_two_instances [posix_factory; posix_factory])) /\
  Forall (fun o => touches_takenPorts o = false)
    (history (reached script_two_instances [posix_factory; posix_factory])).
Proof.
  assert (Hrun : posix_run script_two_instances
                   (posix_start [posix_factory; posix_factory])
                 = Some (reached script_two_instances [posix_factory; posix_factory]))
    by by_evaluation.
  refine (C9_takenPorts_stays_empty false demo_properties demo_bin demo_env
            demo_decoder [posix_factory; posix_factory] script_two_instances _ _ Hrun).
  repeat constructor.
Defined.

Lemma C10_each_invocation_owns_its_manager_witness :
  constructed (reached script_two_instances [posix_factory; posix_factory])
    = (fun i => (i, i)) <$> seq 0 (length [posix_factory; posix_factory]) /\
  length (heap (reached script_two_instances [posix_factory; posix_factory]))
    = length [posix_factory; posix_factory] /\
  forall o tid this,
    o ∈ history (reached script_two_instances [posix_factory; posix_factory]) ->
    access_of o = Some (tid, this) -> this = tid.
Proof.
  assert (Hrun : posix_run script_two_instances
                   (posix_start [posix_factory; posix_factory])
                 = Some (reached script_two_instances [posix_factory; posix_factory]))
    by by_evaluation.
  refine (C10_each_invocation_owns_its_manager false demo_properties demo_bin demo_env
            demo_decoder [posix_factory; posix_factory] script_two_instances _ _ Hrun).
  repeat constructor.
Defined.

(** ** The further properties on the concrete host *)

(** The broker crashes during the startup interval. *)
Local Abbreviation script_crash :=
  [Complete 0 (RPorts None demo_ports); Complete 0 (RDir None "/tmp/kafka-1");
   Complete 0 (REditor None demo_template); Complete 0 (RSaved None);
   Complete 0 (RExec None "Formatting metadata directory" EmptyString);
   Emit 0 (EExit (Some 1%Z));
   Complete 0 RTimeout].

(** The probe answers with one port only. *)
Local Abbreviation script_one_port :=
  [Complete 0 (RPorts None [18000%N]); Complete 0 (RDir None "/tmp/kafka-1");
   Complete 0 (REditor None demo_template)].

(** A manager that holds the base port. *)
Local Abbreviation holding_base := (MkManager EmptyString [18000%N]).

Local Abbreviation script_probes :=
  [Complete 0 (RPort None 18000%N); Complete 0 (RPort None 18001%N)].

(** A host on which the logging is not asked for. *)
Local Abbreviation quiet_env := ({[ "JMX_PORT" := "9999" ]} : Env).

Local Abbreviation quiet_factory :=
  (factory false demo_properties demo_bin quiet_env).

Local Abbreviation quietly_reached script roots :=
  (default init (run quiet_env demo_decoder script (start quiet_env demo_decoder roots))).

Lemma escape_backslashes_plain_witness :
  has_backslash "/tmp/kafka-1" = false /\
  escape_backslashes "/tmp/kafka-1" = "/tmp/kafka-1".
Proof. split; [reflexivity|]. apply escape_backslashes_plain. reflexivity. Defined.

Lemma escape_backslashes_inj_witness :
  escape_backslashes "C:\Temp\kafka-1" = "C:\\Temp\\kafka-1" /\
  "C:\Temp\kafka-1" = "C:\Temp\kafka-1".
Proof.
  split; [reflexivity|].
  apply (escape_backslashes_inj "C:\Temp\kafka-1" "C:\Temp\kafka-1"). reflexivity.
Defined.

Lemma waitFor_resolves_when_timer_fires_witness :
  calls (reached [Complete 0 RTimeout] [wait_root 0 10000])
    = [CSetTimeout 10000] /\
  (outcome_of 0 (reached [Complete 0 RTimeout] [wait_root 0 10000])
     = Some (Resolved VUnit)
   <-> OReturn 0 RTimeout ∈ history (reached [Complete 0 RTimeout] [wait_root 0 10000])) /\
  (forall o, outcome_of 0 (reached [Complete 0 RTimeout] [wait_root 0 10000]) = Some o ->
             o = Resolved VUnit).
Proof.
  assert (Hrun : posix_run [Complete 0 RTimeout] (posix_start [wait_root 0 10000])
                 = Some (reached [Complete 0 RTimeout] [wait_root 0 10000]))
    by by_evaluation.
  exact (waitFor_resolves_when_timer_fires demo_env demo_decoder 0 10000%N _ _ Hrun).
Defined.

Lemma createTempDirectory_one_request_witness :
  calls (reached [Complete 0 (RDir None "/tmp/kafka-1")] [dir_root 0 "kafka-"])
    = [CTmpDir "kafka-" true] /\
  (forall v,
      outcome_of 0 (reached [Complete 0 (RDir None "/tmp/kafka-1")] [dir_root 0 "kafka-"])
        = Some (Resolved v) <->
      exists path, v = VString path /\
        OReturn 0 (RDir None path)
          ∈ history (reached [Complete 0 (RDir None "/tmp/kafka-1")] [dir_root 0 "kafka-"])) /\
  (forall e,
      outcome_of 0 (reached [Complete 0 (RDir None "/tmp/kafka-1")] [dir_root 0 "kafka-"])
        = Some (Rejected e) <->
      exists path,
        OReturn 0 (RDir (Some e) path)
          ∈ history (reached [Complete 0 (RDir None "/tmp/kafka-1")] [dir_root 0 "kafka-"])).
Proof.
  assert (Hrun : posix_run [Complete 0 (RDir None "/tmp/kafka-1")]
                   (posix_start [dir_root 0 "kafka-"])
                 = Some (reached [Complete 0 (RDir None "/tmp/kafka-1")]
                           [dir_root 0 "kafka-"]))
    by by_evaluation.
  exact (createTempDirectory_one_request demo_env demo_decoder 0 "kafka-" _ _ Hrun).
Defined.

Lemma allocatePorts_takes_the_first_two_witness :
  calls (reached [Complete 0 (RPorts None [18000%N])] [ports_root 0]) = [CGetPorts 2] /\
  (forall v,
      outcome_of 0 (reached [Complete 0 (RPorts None [18000%N])] [ports_root 0])
        = Some (Resolved v) <->
      exists ports, v = VPorts (MkPorts (ports !! 0%nat) (ports !! 1%nat)) /\
        OReturn 0 (RPorts None ports)
          ∈ history (reached [Complete 0 (RPorts None [18000%N])] [ports_root 0])) /\
  (forall e,
      outcome_of 0 (reached [Complete 0 (RPorts None [18000%N])] [ports_root 0])
        = Some (Rejected e) <->
      exists ports,
        OReturn 0 (RPorts (Some e) ports)
          ∈ history (reached [Complete 0 (RPorts None [18000%N])] [ports_root 0])).
Proof.
  assert (Hrun : posix_run [Complete 0 (RPorts None [18000%N])] (posix_start [ports_root 0])
                 = Some (reached [Complete 0 (RPorts None [18000%N])] [ports_root 0]))
    by by_evaluation.
  exact (allocatePorts_takes_the_first_two demo_env demo_decoder 0 _ _ Hrun).
Defined.

Lemma createKafkaConfig_ignores_the_save_error_witness :
  (forall v,
      outcome_of 0 (reached [Complete 0 (REditor None demo_template);
                             Complete 0 (RSaved (Some format_failed))] [posix_config])
        = Some (Resolved v) <->
      v = VString (config_file false "/tmp/kafka-1") /\
      exists err,
        OReturn 0 (RSaved err)
          ∈ history (reached [Complete 0 (REditor None demo_template);
                              Complete 0 (RSaved (Some format_failed))] [posix_config])) /\
  (forall e,
      outcome_of 0 (reached [Complete 0 (REditor None demo_template);
                             Complete 0 (RSaved (Some format_failed))] [posix_config])
        = Some (Rejected e) <->
      exists props,
        OReturn 0 (REditor (Some e) props)
          ∈ history (reached [Complete 0 (REditor None demo_template);
                              Complete 0 (RSaved (Some format_failed))] [posix_config])).
Proof.
  assert (Hrun : posix_run [Complete 0 (REditor None demo_template);
                            Complete 0 (RSaved (Some format_failed))]
                   (posix_start [posix_config])
                 = Some (reached [Complete 0 (REditor None demo_template);
                                  Complete 0 (RSaved (Some format_failed))]
                           [posix_config]))
    by by_evaluation.
  exact (createKafkaConfig_ignores_the_save_error false demo_properties demo_env
           demo_decoder 0 "/tmp/kafka-1" (Some 18001%N) (Some 18000%N) _ _ Hrun).
Defined.

Lemma start_settles_with_the_timer_witness :
  OSpawn 0 0 (start_script false demo_bin) ["/tmp/kafka-1/server.properties"]
     (child_opts demo_env "/tmp/kafka-1")
    ∈ history (reached script_crash [posix_factory]) /\
  OEmit 0 (EExit (Some 1%Z)) ∈ history (reached script_crash [posix_factory]) /\
  (forall e, outcome_of 0 (reached script_crash [posix_factory]) <> Some (Rejected e)) /\
  ((exists h, outcome_of 0 (reached script_crash [posix_factory])
              = Some (Resolved (VHandle h)))
   <-> OReturn 0 RTimeout ∈ history (reached script_crash [posix_factory])).
Proof.
  assert (Hrun : posix_run script_crash (posix_start [posix_factory])
                 = Some (reached script_crash [posix_factory]))
    by by_evaluation.
  assert (Hsp : OSpawn 0 0 (start_script false demo_bin)
                   ["/tmp/kafka-1/server.properties"]
                   (child_opts demo_env "/tmp/kafka-1")
                  ∈ history (reached script_crash [posix_factory]))
    by in_history.
  split; [exact Hsp|]. split; [in_history|].
  exact (start_settles_with_the_timer false demo_properties demo_bin demo_env
           demo_decoder script_crash _ _ _ _ _ _ Hrun Hsp).
Defined.

Lemma handle_port_is_the_configured_port_witness :
  outcome_of 0 (reached script_start [posix_factory])
    = Some (Resolved (VHandle posix_handle)) /\
  kafkaPort posix_handle = Some 18000%N /\
  OCall 0 (CSave "/tmp/kafka-1/server.properties" written_config)
    ∈ history (reached script_start [posix_factory]) /\
  exists ports,
    OReturn 0 (RPorts None ports) ∈ history (reached script_start [posix_factory]) /\
    kafkaPort posix_handle = ports !! 0%nat /\
    written_config !! "listeners"
      = Some ("PLAINTEXT://localhost:"
                +:+ from_option pretty "undefined" (kafkaPort posix_handle)
                +:+ ",CONTROLLER://localhost:"
                +:+ from_option pretty "undefined" (ports !! 1%nat)) /\
    written_config !! "advertised.listeners"
      = Some ("PLAINTEXT://localhost:"
                +:+ from_option pretty "undefined" (kafkaPort posix_handle)
                +:+ ",CONTROLLER://localhost:"
                +:+ from_option pretty "undefined" (ports !! 1%nat)) /\
    written_config !! "controller.quorum.bootstrap.servers"
      = Some ("localhost:" +:+ from_option pretty "undefined" (ports !! 1%nat)).
Proof.
  assert (Hrun : posix_run script_start (posix_start [posix_factory])
                 = Some (reached script_start [posix_factory]))
    by by_evaluation.
  assert (Hout : outcome_of 0 (reached script_start [posix_factory])
                 = Some (Resolved (VHandle posix_handle)))
    by by_evaluation.
  assert (Hlit : OCall 0 (CSave "/tmp/kafka-1/server.properties" written_config)
                   ∈ history (reached script_start [posix_factory]))
    by in_history.
  split; [exact Hout|]. split; [reflexivity|]. split; [exact Hlit|].
  destruct (handle_port_is_the_configured_port false demo_properties demo_bin demo_env
              demo_decoder script_start _ _ Hrun Hout)
    as (ports & dir & props & Hret & _ & Huniq & Hport & Hl & Ha & Hb).
  destruct (Huniq _ _ Hlit) as [_ Heq].
  exists ports. rewrite Heq.
  split; [exact Hret|]. split; [exact Hport|]. split; [exact Hl|].
  split; [exact Ha|exact Hb].
Defined.

Lemma missing_port_is_written_as_undefined_witness :
  OReturn 0 (RPorts None [18000%N]) ∈ history (reached script_one_port [posix_factory]) /\
  OCall 0 (CSave "/tmp/kafka-1/server.properties"
             (instance_props "/tmp/kafka-1" [18000%N] demo_template))
    ∈ history (reached script_one_port [posix_factory]) /\
  instance_props "/tmp/kafka-1" [18000%N] demo_template
    !! "controller.quorum.bootstrap.servers" = Some "localhost:undefined" /\
  instance_props "/tmp/kafka-1" [18000%N] demo_template !! "listeners"
    = Some ("PLAINTEXT://localhost:" +:+ template_port ([18000%N] !! 0%nat)
              +:+ ",CONTROLLER://localhost:undefined").
Proof.
  assert (Hrun : posix_run script_one_port (posix_start [posix_factory])
                 = Some (reached script_one_port [posix_factory]))
    by by_evaluation.
  assert (Hp : OReturn 0 (RPorts None [18000%N])
                 ∈ history (reached script_one_port [posix_factory]))
    by in_history.
  assert (Hs : OCall 0 (CSave "/tmp/kafka-1/server.properties"
                          (instance_props "/tmp/kafka-1" [18000%N] demo_template))
                 ∈ history (reached script_one_port [posix_factory]))
    by in_history.
  split; [exact Hp|]. split; [exact Hs|].
  exact (missing_port_is_written_as_undefined false demo_properties demo_bin demo_env
           demo_decoder script_one_port _ [18000%N] _ _ Hrun Hp Hs eq_refl).
Defined.

Lemma close_resolves_after_both_exits_witness :
  outcome_of 1 closed <> None /\
  pending closed = [] /\
  (forall e, outcome_of 1 closed <> Some (Rejected e)) /\
  (outcome_of 1 closed <> None -> procs closed = [true; true]).
Proof.
  assert (Hrun : posix_run script_start (posix_start [posix_factory])
                 = Some (reached script_start [posix_factory]))
    by by_evaluation.
  assert (Hout : outcome_of 0 (reached script_start [posix_factory])
                 = Some (Resolved (VHandle posix_handle)))
    by by_evaluation.
  assert (Hclose : posix_run script_close
                     (invoke demo_env demo_decoder 1 (close_root posix_handle)
                        (reached script_start [posix_factory])) = Some closed)
    by by_evaluation.
  split; [vm_compute; discriminate|].
  exact (close_resolves_after_both_exits false demo_properties demo_bin demo_env
           demo_decoder script_start _ posix_handle script_close closed
           Hrun Hout Hclose).
Defined.

(** The state after [close] was called on the handle of the crashed
    broker, and the broker wrote once more. *)
Local Abbreviation waiting :=
  (default init
     (posix_run [Emit 0 (EData Stderr "late")]
        (invoke demo_env demo_decoder 1 (close_root posix_handle)
           (reached script_crash [posix_factory])))).

Lemma close_after_exit_never_settles_witness :
  procs (reached script_crash [posix_factory]) !! 0%nat = Some true /\
  outcome_of 1 waiting = None /\
  procs waiting = [true] /\
  exists new, trace waiting = new ++ trace (reached script_crash [posix_factory]) /\
              milestones (rev new) = [OHost 1 (Kill 0 "SIGKILL")].
Proof.
  assert (Hrun : posix_run script_crash (posix_start [posix_factory])
                 = Some (reached script_crash [posix_factory]))
    by by_evaluation.
  assert (Hout : outcome_of 0 (reached script_crash [posix_factory])
                 = Some (Resolved (VHandle posix_handle)))
    by by_evaluation.
  assert (Hex : procs (reached script_crash [posix_factory]) !! 0%nat = Some true)
    by by_evaluation.
  assert (Hclose : posix_run [Emit 0 (EData Stderr "late")]
                     (invoke demo_env demo_decoder 1 (close_root posix_handle)
                        (reached script_crash [posix_factory])) = Some waiting)
    by by_evaluation.
  split; [exact Hex|].
  exact (close_after_exit_never_settles false demo_properties demo_bin demo_env
           demo_decoder script_crash _ posix_handle _ waiting Hrun Hout Hex Hclose).
Defined.

Lemma getAvailablePort_accepts_the_first_free_port_witness :
  outcome_of 0 (reached script_probes [port_root holding_base 8])
    = Some (Resolved (VPort 18001%N)) /\
  exists skipped p,
    VPort 18001%N = VPort p /\ (p ∉ takenPorts holding_base) /\
    Forall (fun q => q ∈ takenPorts holding_base) skipped /\
    actions (history (reached script_probes [port_root holding_base 8]))
    = h_skipped skipped
        ++ [OCall 0 CGetPort; OReturn 0 (RPort None p); OIncludes 0 0 p;
            OSettle 0 (Resolved (VPort p))].
Proof.
  assert (Hrun : posix_run script_probes (posix_start [port_root holding_base 8])
                 = Some (reached script_probes [port_root holding_base 8]))
    by by_evaluation.
  assert (Hout : outcome_of 0 (reached script_probes [port_root holding_base 8])
                 = Some (Resolved (VPort 18001%N)))
    by by_evaluation.
  split; [exact Hout|].
  exact (getAvailablePort_accepts_the_first_free_port demo_env demo_decoder
           holding_base 8 script_probes _ _ Hrun Hout).
Defined.

Lemma getAvailablePort_rejects_with_the_probe_error_witness :
  outcome_of 0 (reached [Complete 0 (RPort None 18000%N);
                         Complete 0 (RPort (Some format_failed) 0%N)]
                  [port_root holding_base 8])
    = Some (Rejected format_failed)
  <-> exists port,
      OReturn 0 (RPort (Some format_failed) port)
        ∈ history (reached [Complete 0 (RPort None 18000%N);
                            Complete 0 (RPort (Some format_failed) 0%N)]
                     [port_root holding_base 8]).
Proof.
  assert (Hrun : posix_run [Complete 0 (RPort None 18000%N);
                            Complete 0 (RPort (Some format_failed) 0%N)]
                   (posix_start [port_root holding_base 8])
                 = Some (reached [Complete 0 (RPort None 18000%N);
                                  Complete 0 (RPort (Some format_failed) 0%N)]
                           [port_root holding_base 8]))
    by by_evaluation.
  exact (getAvailablePort_rejects_with_the_probe_error demo_env demo_decoder
           holding_base 8 _ _ format_failed Hrun).
Defined.

Lemma getAvailablePort_records_nothing_witness :
  heap (reached script_probes [port_root holding_base 8]) = [holding_base] /\
  forall tid this port,
    OPush tid this port ∉ history (reached script_probes [port_root holding_base 8]).
Proof.
  assert (Hrun : posix_run script_probes (posix_start [port_root holding_base 8])
                 = Some (reached script_probes [port_root holding_base 8]))
    by by_evaluation.
  exact (getAvailablePort_records_nothing demo_env demo_decoder holding_base 8
           script_probes _ Hrun).
Defined.

Lemma console_is_silent_unless_verbose_witness :
  quiet_env !! KAFKA_LOG_ENV = None /\
  forall tid msg args,
    OHost tid (ConsoleLog msg args)
      ∉ history (quietly_reached script_two_instances [quiet_factory; quiet_factory]).
Proof.
  assert (Hrun : run quiet_env demo_decoder script_two_instances
                   (start quiet_env demo_decoder [quiet_factory; quiet_factory])
                 = Some (quietly_reached script_two_instances
                           [quiet_factory; quiet_factory]))
    by by_evaluation.
  split; [reflexivity|].
  refine (console_is_silent_unless_verbose false demo_properties demo_bin quiet_env
            demo_decoder [quiet_factory; quiet_factory] script_two_instances _
            _ _ Hrun).
  - vm_compute. discriminate.
  - repeat constructor.
Defined.

Lemma both_streams_share_the_decoder_witness :
  chunks (reached (script_start ++ [Emit 0 (EData Stderr "late")]) [posix_factory])
    = ["started"; "late"] /\
  decoded (reached (script_start ++ [Emit 0 (EData Stderr "late")]) [posix_factory])
    = chunks (reached (script_start ++ [Emit 0 (EData Stderr "late")]) [posix_factory]).
Proof.
  assert (Hrun : posix_run (script_start ++ [Emit 0 (EData Stderr "late")])
                   (posix_start [posix_factory])
                 = Some (reached (script_start ++ [Emit 0 (EData Stderr "late")])
                           [posix_factory]))
    by by_evaluation.
  split; [by_evaluation|].
  exact (both_streams_share_the_decoder false demo_properties demo_bin demo_env
           demo_decoder _ _ Hrun).
Defined.

Lemma pipeline_is_sequential_witness :
  calls (reached script_one_port [posix_factory])
    = [CGetPorts 2; CTmpDir "kafka-" true; CCreateEditor demo_properties;
       CSave "/tmp/kafka-1/server.properties"
         (instance_props "/tmp/kafka-1" [18000%N] demo_template)] /\
  exists ports dir tmpl,
    calls (reached script_one_port [posix_factory]) `prefix_of`
      [CGetPorts 2; CTmpDir "kafka-" true; CCreateEditor demo_properties;
       CSave (config_file false dir) (instance_props dir ports tmpl);
       CExec (format_command false demo_bin (config_file false dir));
       CSetTimeout WAIT_TIME].
Proof.
  assert (Hrun : posix_run script_one_port (posix_start [posix_factory])
                 = Some (reached script_one_port [posix_factory]))
    by by_evaluation.
  split; [by_evaluation|].
  exact (pipeline_is_sequential false demo_properties demo_bin demo_env demo_decoder
           script_one_port _ Hrun).
Defined.

Lemma spawn_follows_the_format_witness :
  OSpawn 0 0 (start_script false demo_bin) ["/tmp/kafka-1/server.properties"]
     (child_opts demo_env "/tmp/kafka-1")
    ∈ history (reached script_start [posix_factory]) /\
  0%nat = 0%nat /\ 0%nat = 0%nat /\
  exists out errout,
    OReturn 0 (RExec None out errout) ∈ history (reached script_start [posix_factory]).
Proof.
  assert (Hrun : posix_run script_start (posix_start [posix_factory])
                 = Some (reached script_start [posix_factory]))
    by by_evaluation.
  assert (Hsp : OSpawn 0 0 (start_script false demo_bin)
                   ["/tmp/kafka-1/server.properties"]
                   (child_opts demo_env "/tmp/kafka-1")
                  ∈ history (reached script_start [posix_factory]))
    by in_history.
  split; [exact Hsp|].
  exact (spawn_follows_the_format false demo_properties demo_bin demo_env demo_decoder
           script_start _ _ _ _ _ _ Hrun Hsp).
Defined.
